(** * Task manager: a list-of-dicts task table (task_manager.py)

    A shallow embedding of the task table engine: the record schema and its
    validation, the two mutating operations [add_task] and [update_task]
    (over a store of Python list and dict objects, so that what the caller's
    table looks like after a call can be stated), the queries, and the CSV
    export and import.

    Conventions.
    - A Python [str] is a [string]; a character is a code point below 256.
    - A value of type [Optional[str]] is an [option string]: [None] is
      Python's [None].
    - A [dict] is a finite map from keys to such values; a key that is
      missing is different from a key bound to [None].
    - [uuid.uuid4()] and [datetime.utcnow()] are inputs of the operation
      that calls them.
    - A Python [float] is the rational number the double stands for; the
      operations round their exact result to the nearest double, ties to
      even, as IEEE 754 binary64 does. *)

From Stdlib Require Import ZArith String Ascii QArith Qround Qpower Lqa Floats.
From stdpp Require Import gmap strings list fin_maps sorting.

Open Scope string_scope.
Open Scope list_scope.

(** ** Python values, exceptions and results *)

Abbreviation value := (option string) (only parsing).
Abbreviation dict := (gmap string (option string)) (only parsing).

Inductive exn : Type :=
  | ValueError (msg : string)
  | KeyError (key : string)
  | AttributeError (msg : string)
  | TypeError (msg : string)
  | IndexError (msg : string)
  | FileNotFoundError (path : string).

Inductive result (A : Type) : Type :=
  | Ok (a : A)
  | Err (e : exn).
Arguments Ok {A} a.
Arguments Err {A} e.

#[global] Instance result_ret : MRet result := fun A a => Ok a.

#[global] Instance result_bind : MBind result := fun A B k r =>
  match r with
  | Ok a => k a
  | Err e => Err e
  end.

#[global] Instance exn_eq_dec : EqDecision exn.
Proof. solve_decision. Defined.

#[global] Instance result_eq_dec {A : Type} `{EqDecision A} : EqDecision (result A).
Proof. solve_decision. Defined.

(** [d.get(k)]: the value bound to [k], Python's [None] when [k] is missing. *)
Definition dict_get (d : dict) (k : string) : value :=
  default None (d !! k).

(** [d.get(k, dflt)]. *)
Definition dict_get_default (d : dict) (k : string) (dflt : value) : value :=
  default dflt (d !! k).

(** [d[k]]: raises [KeyError] when [k] is missing. *)
Definition dict_index (d : dict) (k : string) : result value :=
  match d !! k with
  | Some v => Ok v
  | None => Err (KeyError k)
  end.

(** Truthiness of an [Optional[str]]: [None] and [""] are falsy. *)
Definition truthy (v : value) : bool :=
  match v with
  | Some s => negb (bool_decide (s = ""))
  | None => false
  end.

(** [v or s] where [s] is a string. *)
Definition or_str (v : value) (s : string) : string :=
  match v with
  | Some x => if bool_decide (x = "") then s else x
  | None => s
  end.

(** [v or None]. *)
Definition or_none (v : value) : value :=
  if truthy v then v else None.

(** [v in l] for a list of strings [l]. *)
Definition value_in (v : value) (l : list string) : bool :=
  match v with
  | Some s => bool_decide (s ∈ l)
  | None => false
  end.

(** [v in (None, "")]. *)
Definition is_none_or_empty (v : value) : bool :=
  match v with
  | None => true
  | Some s => bool_decide (s = "")
  end.

(** [str.isspace] on one character (code points below 256). *)
Definition isspace (c : ascii) : bool :=
  let n := nat_of_ascii c in
  (((9 <=? n) && (n <=? 13)) || ((28 <=? n) && (n <=? 32))
   || (n =? 133) || (n =? 160))%nat.

Fixpoint lstrip (s : string) : string :=
  match s with
  | EmptyString => EmptyString
  | String c r => if isspace c then lstrip r else s
  end.

Fixpoint rstrip (s : string) : string :=
  match s with
  | EmptyString => EmptyString
  | String c r =>
      match rstrip r with
      | EmptyString => if isspace c then EmptyString else String c EmptyString
      | r' => String c r'
      end
  end.

(** [s.strip()]. *)
Definition strip (s : string) : string := rstrip (lstrip s).

Fixpoint all_space (s : string) : bool :=
  match s with
  | EmptyString => true
  | String c r => isspace c && all_space r
  end.

(** [repr] of a list of strings none of which holds a quote or a backslash. *)
Definition repr_strs (l : list string) : string :=
  "[" +:+ String.concat ", " (map (fun s => "'" +:+ s +:+ "'") l) +:+ "]".

(** ** Calendar dates *)

Local Open Scope Z_scope.

Record date : Type := mk_date { year : Z; month : Z; day : Z }.

#[global] Instance date_eq_dec : EqDecision date.
Proof. solve_decision. Defined.

(** [date.max]. *)
Definition date_max : date := mk_date 9999 12 31.

(** [d1 < d2]: dates compare as (year, month, day). *)
Definition date_ltb (d1 d2 : date) : bool :=
  (year d1 <? year d2)
  || ((year d1 =? year d2)
      && ((month d1 <? month d2)
          || ((month d1 =? month d2) && (day d1 <? day d2)))).

Definition is_leap (y : Z) : bool :=
  (y mod 4 =? 0) && (negb (y mod 100 =? 0) || (y mod 400 =? 0)).

Definition days_in_month (y m : Z) : Z :=
  if m =? 2 then (if is_leap y then 29 else 28)
  else if (m =? 4) || (m =? 6) || (m =? 9) || (m =? 11) then 30
  else 31.

(** [date(y, m, d)]: [None] where Python raises [ValueError]. *)
Definition make_date (y m d : Z) : option date :=
  if (1 <=? y) && (y <=? 9999) && (1 <=? m) && (m <=? 12)
     && (1 <=? d) && (d <=? days_in_month y m)
  then Some (mk_date y m d) else None.

Definition digit (c : ascii) : option Z :=
  let n := Z.of_nat (nat_of_ascii c) in
  if (48 <=? n) && (n <=? 57) then Some (n - 48) else None.

(** The directive [%d] at the end of the input: the alternatives
    [3[0-1]], [[1-2]\d], [0[1-9]], [[1-9]] and a space followed by [[1-9]],
    one of which has to consume everything that is left. *)
Definition parse_day (l : list ascii) : option Z :=
  match l with
  | [c] => d ← digit c; if 1 <=? d then Some d else None
  | [c1; c2] =>
      if bool_decide (c1 = " "%char)
      then d ← digit c2; if 1 <=? d then Some d else None
      else
        a ← digit c1; b ← digit c2;
        let n := 10 * a + b in
        if (1 <=? n) && (n <=? 31) then Some n else None
  | _ => None
  end.

(** The directive [%m] followed by the literal [-]: the alternatives
    [1[0-2]], [0[1-9]] and [[1-9]]. Returns the month and the rest. *)
Definition parse_month (l : list ascii) : option (Z * list ascii) :=
  match l with
  | c1 :: c2 :: c3 :: rest =>
      if bool_decide (c2 = "-"%char)
      then m ← digit c1; if 1 <=? m then Some (m, c3 :: rest) else None
      else if bool_decide (c3 = "-"%char)
      then
        a ← digit c1; b ← digit c2;
        let n := 10 * a + b in
        if (1 <=? n) && (n <=? 12) then Some (n, rest) else None
      else None
  | [c1; c2] =>
      if bool_decide (c2 = "-"%char)
      then m ← digit c1; if 1 <=? m then Some (m, []) else None
      else None
  | _ => None
  end.

(** [datetime.strptime(s, "%Y-%m-%d").date()]: [None] where Python raises
    [ValueError]. *)
Definition strptime_ymd (s : string) : option date :=
  match list_ascii_of_string s with
  | y1 :: y2 :: y3 :: y4 :: dash :: rest =>
      a ← digit y1; b ← digit y2; c ← digit y3; d ← digit y4;
      if bool_decide (dash = "-"%char)
      then
        '(m, rest') ← parse_month rest;
        dd ← parse_day rest';
        make_date (1000 * a + 100 * b + 10 * c + d) m dd
      else None
  | _ => None
  end.

Local Close Scope Z_scope.

(** ** Schema *)

Definition PRIORITIES : list string := ["Low"; "Medium"; "High"; "Urgent"].
Definition STATUSES : list string := ["To Do"; "In Progress"; "Blocked"; "Completed"].
Definition COLUMNS : list string :=
  [ "task_id"; "task_name"; "description"; "category"; "priority"; "status";
    "start_date"; "due_date"; "completion_date"; "assigned_to"; "notes";
    "last_updated" ].

(** ** Validation *)

Definition _validate_date (date_str : value) (field_name : string)
  : result (option date) :=
  match date_str with
  | None => Ok None
  | Some s =>
      if bool_decide (s = "") then Ok None
      else match strptime_ymd s with
           | Some parsed => Ok (Some parsed)
           | None => Err (ValueError (field_name +:+ " must be in YYYY-MM-DD format"))
           end
  end.

(** [v.strip()] for the value [task.get("task_name", "")]: [None] has no
    such method. *)
Definition value_strip (v : value) : result string :=
  match v with
  | Some s => Ok (strip s)
  | None => Err (AttributeError "'NoneType' object has no attribute 'strip'")
  end.

(** [a and b and a > b] on two parsed dates: a date is always truthy. *)
Definition both_and_gt (a b : option date) : bool :=
  match a, b with
  | Some x, Some y => date_ltb y x
  | _, _ => false
  end.

Fixpoint task_ids (table : list dict) : result (list value) :=
  match table with
  | [] => Ok []
  | row :: rest =>
      v ← dict_index row "task_id";
      vs ← task_ids rest;
      Ok (v :: vs)
  end.

(** [ids.count(v)]. *)
Definition count_value (v : value) (ids : list value) : nat :=
  length (filter (fun x => x = v) ids).

Definition _validate_task_record (task : dict) (table : list dict) : result unit :=
  name ← value_strip (dict_get_default task "task_name" (Some ""));
   if bool_decide (name = "") then Err (ValueError "task_name is required") else
   if negb (value_in (dict_get task "priority") PRIORITIES)
   then Err (ValueError ("priority must be one of " +:+ repr_strs PRIORITIES)) else
   if negb (value_in (dict_get task "status") STATUSES)
   then Err (ValueError ("status must be one of " +:+ repr_strs STATUSES)) else
   start ← _validate_date (dict_get task "start_date") "start_date";
   due ← _validate_date (dict_get task "due_date") "due_date";
   completion ← _validate_date (dict_get task "completion_date") "completion_date";
   if both_and_gt start due
   then Err (ValueError "start_date must be on or before due_date") else
   if negb (is_none_or_empty (dict_get task "completion_date"))
      && negb (bool_decide (dict_get task "status" = Some "Completed"))
   then Err (ValueError "completion_date can only be set when status is 'Completed'") else
   if both_and_gt start completion
   then Err (ValueError "completion_date cannot be before start_date") else
   ids ← task_ids table;
   tid ← dict_index task "task_id";
   if bool_decide (1 < count_value tid ids)%nat
   then Err (ValueError "task_id must be unique")
   else Ok tt.

(** [{col: task.get(col, None) for col in COLUMNS}]. *)
Definition _ensure_columns (task : dict) : dict :=
  list_to_map (map (fun col => (col, dict_get task col)) COLUMNS).
Arguments _ensure_columns : simpl never.


(** [any(row["task_id"] == task_id for row in rows)]: the rows are read one
    by one, up to the first that matches. *)
Fixpoint any_task_id_eq (rows : list dict) (task_id : value) : result bool :=
  match rows with
  | [] => Ok false
  | row :: rest =>
      v ← dict_index row "task_id";
      if bool_decide (v = task_id) then Ok true else any_task_id_eq rest task_id
  end.

(** ** The store of list and dict objects

    A table is a list object whose items are references to dict objects:
    the annotation [List[Dict[str, Optional[str]]]]. Reading a reference
    that holds an object of the other kind raises [TypeError]. *)

Abbreviation loc := positive (only parsing).

Inductive obj : Type :=
  | OList (items : list positive)
  | ODict (d : gmap string (option string)).

Abbreviation heap := (gmap positive obj) (only parsing).

Definition heap_list (h : heap) (l : loc) : result (list loc) :=
  match h !! l with
  | Some (OList items) => Ok items
  | _ => Err (TypeError "list expected")
  end.

Definition heap_dict (h : heap) (l : loc) : result dict :=
  match h !! l with
  | Some (ODict d) => Ok d
  | _ => Err (TypeError "dict expected")
  end.

Fixpoint heap_dicts (h : heap) (items : list loc) : result (list dict) :=
  match items with
  | [] => Ok []
  | l :: rest =>
      d ← heap_dict h l;
      ds ← heap_dicts h rest;
      Ok (d :: ds)
  end.

(** The rows of the table at [t], as a caller holding [t] reads them. *)
Definition heap_rows (h : heap) (t : loc) : result (list dict) :=
  items ← heap_list h t;
  heap_dicts h items.

(** A computation runs on a store and returns the store it leaves and
    either a value or the exception it raised: what was written before an
    exception stays written. *)
Definition M (A : Type) : Type := heap -> heap * result A.

#[global] Instance M_ret : MRet M := fun A a h => (h, Ok a).

#[global] Instance M_bind : MBind M := fun A B k m h =>
  match m h with
  | (h', Ok a) => k a h'
  | (h', Err e) => (h', Err e)
  end.

Definition raise {A : Type} (e : exn) : M A := fun h => (h, Err e).

Definition lift {A : Type} (r : result A) : M A := fun h => (h, r).

Definition alloc (o : obj) : M loc := fun h =>
  let l := fresh (dom h) in (<[l := o]> h, Ok l).

Definition read_list (l : loc) : M (list loc) := fun h => (h, heap_list h l).

Definition read_dict (l : loc) : M dict := fun h => (h, heap_dict h l).

Definition read_rows (t : loc) : M (list dict) := fun h => (h, heap_rows h t).

Definition write (l : loc) (o : obj) : M unit := fun h => (<[l := o]> h, Ok tt).

(** [list(t)]: a new list object with the same items. *)
Definition list_copy (t : loc) : M loc :=
  items ← read_list t; alloc (OList items).

(** [t + [x]]: a new list object. *)
Definition list_concat1 (t x : loc) : M loc :=
  items ← read_list t; alloc (OList (items ++ [x])).

(** [t.append(x)]: the list object at [t] is changed in place. *)
Definition list_append (t x : loc) : M unit :=
  items ← read_list t; write t (OList (items ++ [x])).

(** [t[idx] = x]: in place; [IndexError] out of range. *)
Definition list_setitem (t : loc) (idx : nat) (x : loc) : M unit :=
  items ← read_list t;
  if bool_decide (idx < length items)%nat
  then write t (OList (<[idx := x]> items))
  else raise (IndexError "list assignment index out of range").

(** [d[k] = v]: the dict object at [d] is changed in place. *)
Definition dict_setitem (l : loc) (k : string) (v : value) : M unit :=
  d ← read_dict l; write l (ODict (<[k := v]> d)).

(** [_validate_task_record(task, table)] on objects of the store: the
    function only reads them. *)
Definition validate_at (task table : loc) : M unit :=
  d ← read_dict task;
  rows ← read_rows table;
  lift (_validate_task_record d rows).

(** ** Mutations *)

Definition add_task (table : loc) (task_data : dict) (uuid4 now_iso : string)
  : M loc :=
  new_table ← list_copy table;
  let task_id := or_str (dict_get task_data "task_id") uuid4 in
  rows ← read_rows new_table;
  dup ← lift (any_task_id_eq rows (Some task_id));
  if dup : bool then raise (ValueError "task_id must be unique") else
  base_task ← alloc (ODict (_ensure_columns
                 (<["last_updated" := Some now_iso]>
                    (<["task_id" := Some task_id]> task_data))));
  candidate ← list_concat1 new_table base_task;
  validate_at base_task candidate;;
  list_append new_table base_task;;
  mret new_table.

(** [{**row, **{k: v for k, v in updates.items() if k in COLUMNS}}]. *)
Definition merge_updates (row updates : dict) : dict :=
  filter (fun kv => kv.1 ∈ COLUMNS) updates ∪ row.
Arguments merge_updates : simpl never.

(** The loop of [update_task] from index [idx] on, over the items that are
    left. *)
Fixpoint update_loop (new_table : loc) (task_id : string) (updates : dict)
    (now_iso : string) (idx : nat) (items : list loc) : M loc :=
  match items with
  | [] => raise (ValueError ("task_id '" +:+ task_id +:+ "' not found"))
  | r :: rest =>
      row ← read_dict r;
      v ← lift (dict_index row "task_id");
      if bool_decide (v = Some task_id) then
        merged ← alloc (ODict (_ensure_columns (merge_updates row updates)));
        dict_setitem merged "task_id" (Some task_id);;
        dict_setitem merged "last_updated" (Some now_iso);;
        list_setitem new_table idx merged;;
        validate_at merged new_table;;
        mret new_table
      else update_loop new_table task_id updates now_iso (S idx) rest
  end.

(** ["task_id" in updates and updates["task_id"] != task_id]. *)
Definition changes_task_id (updates : dict) (task_id : string) : bool :=
  match updates !! "task_id" with
  | Some v => negb (bool_decide (v = Some task_id))
  | None => false
  end.

Definition update_task (table : loc) (task_id : string) (updates : dict)
    (now_iso : string) : M loc :=
  if changes_task_id updates task_id
  then raise (ValueError "task_id is immutable")
  else
    new_table ← list_copy table;
    items ← read_list new_table;
    update_loop new_table task_id updates now_iso 0 items.

(** ** Queries

    The queries only read the rows of their table: they are functions of
    the rows. *)

(** [priority_rank.get(v, len(PRIORITIES))], where [priority_rank] maps
    each name of [PRIORITIES] to its index. *)
Definition priority_rank (v : value) : nat :=
  match v with
  | Some s => default (length PRIORITIES) (fst <$> list_find (fun x => x = s) PRIORITIES)
  | None => length PRIORITIES
  end.

Definition _due_key (row : dict) : result date :=
  due ← _validate_date (dict_get row "due_date") "due_date";
  Ok (default date_max due).

(** The key of the composite sort: a pair, compared as Python compares
    tuples. *)
Definition sort_key (row : dict) : result (nat * date) :=
  d ← _due_key row;
  Ok (priority_rank (dict_get row "priority"), d).

Definition key_ltb (k1 k2 : nat * date) : bool :=
  (k1.1 <? k2.1)%nat || ((k1.1 =? k2.1)%nat && date_ltb k1.2 k2.2).

(** [sorted(l, key=key)]: the keys are computed first, one per item and in
    order; the items are then sorted by their keys with [<] alone, and the
    sort is stable (the guarantee of Python's [sorted]). Modelled by an
    insertion sort that puts an item before the first one whose key is not
    smaller. *)
Fixpoint decorate {A K : Type} (key : A -> result K) (l : list A)
  : result (list (K * A)) :=
  match l with
  | [] => Ok []
  | x :: rest =>
      k ← key x;
      ks ← decorate key rest;
      Ok ((k, x) :: ks)
  end.

Fixpoint insert_by {A K : Type} (ltb : K -> K -> bool) (x : K * A)
    (l : list (K * A)) : list (K * A) :=
  match l with
  | [] => [x]
  | y :: ys => if ltb y.1 x.1 then y :: insert_by ltb x ys else x :: y :: ys
  end.

Fixpoint sort_by {A K : Type} (ltb : K -> K -> bool) (l : list (K * A))
  : list (K * A) :=
  match l with
  | [] => []
  | x :: rest => insert_by ltb x (sort_by ltb rest)
  end.

Definition sorted {A K : Type} (key : A -> result K) (ltb : K -> K -> bool)
    (l : list A) : result (list A) :=
  keyed ← decorate key l;
  Ok ((sort_by ltb keyed).*2).

Definition sort_tasks_by_priority_and_due_date (table : list dict)
  : result (list dict) :=
  sorted sort_key key_ltb table.

(** The loop of [overdue_tasks]: [overdue] is the list built so far. *)
Fixpoint overdue_loop (rows : list dict) (today : date) (overdue : list dict)
  : result (list dict) :=
  match rows with
  | [] => Ok overdue
  | row :: rest =>
      due ← _validate_date (dict_get row "due_date") "due_date";
      match due with
      | None => overdue_loop rest today overdue
      | Some d =>
          if date_ltb d today
             && negb (bool_decide (dict_get row "status" = Some "Completed"))
          then overdue_loop rest today (overdue ++ [row])
          else overdue_loop rest today overdue
      end
  end.

(** [overdue_tasks(table, today)]; [date_today] is what [date.today()]
    returns when [today] is not given. *)
Definition overdue_tasks (table : list dict) (today : option date)
    (date_today : date) : result (list dict) :=
  overdue_loop table (default date_today today) [].

(** The inner function of [filter_tasks]: a criterion that is falsy
    ([None] or the empty string) is skipped. *)
Definition _matches (status category assigned_to : value) (row : dict) : bool :=
  if truthy status && negb (bool_decide (dict_get row "status" = status))
  then false
  else if truthy category
          && negb (bool_decide (dict_get row "category" = category))
  then false
  else if truthy assigned_to
          && negb (bool_decide (dict_get row "assigned_to" = assigned_to))
  then false
  else true.

Definition filter_tasks (table : list dict) (status category assigned_to : value)
  : list dict :=
  filter (fun row : dict => _matches status category assigned_to row) table.

(** The key [row.get(sort_by) or ""] of the sort by one field. *)
Definition field_key (sort_by : string) (row : dict) : result string :=
  Ok (or_str (dict_get row sort_by) "").

(** [get_tasks(table, filters, sort_by)]: [filters or {}] makes [None] the
    empty dict, and an empty dict filters nothing; strings compare by code
    points. *)
Definition get_tasks (table : list dict) (filters : option dict)
    (sort_by : value) : result (list dict) :=
  let filters := default ∅ filters in
  let result :=
    if bool_decide (filters = ∅) then table
    else filter_tasks table (dict_get filters "status")
           (dict_get filters "category") (dict_get filters "assigned_to") in
  if bool_decide (sort_by = Some "priority_due")
  then sort_tasks_by_priority_and_due_date result
  else match sort_by with
       | Some s =>
           if bool_decide (s = "") then Ok result
           else sorted (field_key s) String.ltb result
       | None => Ok result
       end.

(** ** Floating point

    A finite double is modelled by the rational number it stands for.
    [binary64 q] is the double nearest to [q], ties to the even mantissa:
    what a correctly rounded operation returns when its exact result is
    [q]. The range of the exponent is not modelled: every number rounded
    here lies between 2^-1022 and 2^1023 for any list a machine can
    hold. *)

(** The integer nearest to [q], ties to the even one. *)
Definition round_half_even (q : Q) : Z :=
  let f := Qfloor q in
  match Qcompare (q - inject_Z f) (1 # 2) with
  | Lt => f
  | Gt => (f + 1)%Z
  | Eq => if Z.even f then f else (f + 1)%Z
  end.

(** The exponent [e] with [2^e <= q < 2^(e+1)], for [q > 0]. *)
Definition ilog2 (q : Q) : Z :=
  let e := (Z.log2 (Qnum q) - Z.log2 (Z.pos (Qden q)))%Z in
  if Qle_bool (2 ^ e) q then e else (e - 1)%Z.

(** The nearest number with a mantissa of 53 bits, for [q > 0]. *)
Definition nearest53 (q : Q) : Q :=
  let e := (ilog2 q - 52)%Z in
  (inject_Z (round_half_even (q / 2 ^ e)) * 2 ^ e)%Q.

Definition binary64 (q : Q) : Q :=
  match Qcompare q 0 with
  | Eq => 0%Q
  | Gt => nearest53 q
  | Lt => (- nearest53 (- q))%Q
  end.

(** The rational number a double of Rocq's primitive floats stands for
    (0 for the infinities and NaN): used to compare [binary64] with the
    hardware. *)
Definition float_value (f : float) : Q :=
  match Prim2SF f with
  | S754_finite s m e =>
      ((if s then - 1 else 1) * inject_Z (Z.pos m) * 2 ^ e)%Q
  | _ => 0%Q
  end.

(** [a / b] on two ints: the quotient, correctly rounded. *)
Definition int_truediv (a b : nat) : Q :=
  binary64 (inject_Z (Z.of_nat a) / inject_Z (Z.of_nat b)).

(** [x * y] on two floats. *)
Definition float_mul (x y : Q) : Q := binary64 (x * y).

(** [round(x, ndigits)] on a float: the exact value of [x] rounded to
    [ndigits] decimals, ties to even, and the double nearest to that
    decimal number. *)
Definition py_round (x : Q) (ndigits : Z) : Q :=
  binary64 (inject_Z (round_half_even (x * 10 ^ ndigits)) / 10 ^ ndigits).

(** [sum(1 for row in table if row.get("status") == "Completed")]. *)
Definition completed_count (table : list dict) : nat :=
  length (filter (fun row : dict => dict_get row "status" = Some "Completed") table).

Definition progress_percentage (table : list dict) : Q :=
  if bool_decide (table = []) then 0%Q
  else py_round (float_mul (int_truediv (completed_count table) (length table)) 100) 2.

(** ** CSV export and import

    A CSV file is the list of its rows, each the list of its cells: the
    quoting of the [csv] module, which carries every cell unchanged, is not
    modelled. The files are a map from paths to contents. *)

Abbreviation csv := (list (list string)) (only parsing).
Abbreviation files := (gmap string (list (list string))) (only parsing).

(** [{col: row.get(col, "") or "" for col in COLUMNS}] as [DictWriter]
    writes it: one cell per column. *)
Definition export_row (row : dict) : list string :=
  map (fun col => or_str (dict_get_default row col (Some "")) "") COLUMNS.
Arguments export_row : simpl never.

Definition export_to_csv (table : list dict) (path : string) (fs : files)
  : files :=
  <[path := COLUMNS :: map export_row table]> fs.

(** [{col: (row.get(col) or None) for col in COLUMNS}] for a row read by a
    [DictReader] whose field names are [COLUMNS]: [row.get(col)] is the
    cell under [col], and [None] when the row is too short. *)
Definition cleaned_row (cells : list string) : dict :=
  list_to_map (imap (fun i col => (col, or_none (cells !! i))) COLUMNS).
Arguments cleaned_row : simpl never.

(** The loop of [import_from_csv]; a [DictReader] skips the rows without
    cells. [now_iso n] is the time read while the [n]-th record is
    built. *)
Fixpoint import_loop (now_iso : nat -> string) (rows : csv)
    (new_table : list dict) : result (list dict) :=
  match rows with
  | [] => Ok new_table
  | cells :: rest =>
      if bool_decide (cells = []) then import_loop now_iso rest new_table else
      let cleaned := cleaned_row cells in
      dup ← any_task_id_eq new_table (dict_get cleaned "task_id");
      if dup : bool then Err (ValueError "Duplicate task_id found in CSV") else
      let cleaned :=
        <["last_updated" :=
            Some (or_str (dict_get cleaned "last_updated")
                         (now_iso (length new_table)))]> cleaned in
      _validate_task_record cleaned (new_table ++ [cleaned]);;
      import_loop now_iso rest (new_table ++ [cleaned])
  end.

Definition import_from_csv (path : string) (fs : files)
    (now_iso : nat -> string) : result (list dict) :=
  match fs !! path with
  | None => Err (FileNotFoundError path)
  | Some [] => Err (ValueError "CSV columns do not match expected schema")
  | Some (fieldnames :: rows) =>
      if bool_decide (fieldnames = COLUMNS)
      then import_loop now_iso rows []
      else Err (ValueError "CSV columns do not match expected schema")
  end.

(** ** Functional summaries of the mutations

    What [add_task] and [update_task] compute, as functions of the rows of
    the table they are given; the lemmas [add_task_refines] and
    [update_task_refines] relate them to the operations on the store. *)

Definition add_task_rows (rows : list dict) (task_data : dict)
    (uuid4 now_iso : string) : result (list dict) :=
  let task_id := or_str (dict_get task_data "task_id") uuid4 in
  dup ← any_task_id_eq rows (Some task_id);
  if dup : bool then Err (ValueError "task_id must be unique") else
  let base_task :=
    _ensure_columns (<["last_updated" := Some now_iso]>
                       (<["task_id" := Some task_id]> task_data)) in
  _validate_task_record base_task (rows ++ [base_task]);;
  Ok (rows ++ [base_task]).

(** The first row, from index [idx] on, whose [task_id] is [task_id]. *)
Fixpoint find_task (rows : list dict) (task_id : string) (idx : nat)
  : result (option (nat * dict)) :=
  match rows with
  | [] => Ok None
  | row :: rest =>
      v ← dict_index row "task_id";
      if bool_decide (v = Some task_id) then Ok (Some (idx, row))
      else find_task rest task_id (S idx)
  end.

Definition merged_row (row : dict) (task_id : string) (updates : dict)
    (now_iso : string) : dict :=
  <["last_updated" := Some now_iso]>
    (<["task_id" := Some task_id]> (_ensure_columns (merge_updates row updates))).
Arguments merged_row : simpl never.

(** What the loop of [update_task] does with the row it has found. *)
Definition update_found (rows : list dict) (task_id : string) (updates : dict)
    (now_iso : string) (found : option (nat * dict)) : result (list dict) :=
  match found with
  | None => Err (ValueError ("task_id '" +:+ task_id +:+ "' not found"))
  | Some (idx, row) =>
      let merged := merged_row row task_id updates now_iso in
      _validate_task_record merged (<[idx := merged]> rows);;
      Ok (<[idx := merged]> rows)
  end.

Definition update_task_rows (rows : list dict) (task_id : string)
    (updates : dict) (now_iso : string) : result (list dict) :=
  if changes_task_id updates task_id
  then Err (ValueError "task_id is immutable")
  else
    found ← find_task rows task_id 0;
    update_found rows task_id updates now_iso found.

(** A caller that adds one task after the other, each to the table the
    call before returned; a call is its data and what [uuid4] and the clock
    return during it. *)
Fixpoint add_tasks (table : loc) (calls : list (dict * string * string))
  : M loc :=
  match calls with
  | [] => mret table
  | (task_data, uuid4, now_iso) :: rest =>
      t ← add_task table task_data uuid4 now_iso;
      add_tasks t rest
  end.

(** ** Notions of the specification *)

(** The [task_id] values of the rows are pairwise distinct. *)
Definition distinct_ids (rows : list dict) : Prop :=
  ∃ ids, task_ids rows = Ok ids ∧ NoDup ids.

(** No row has the empty string as its [task_id]. *)
Definition no_empty_id (rows : list dict) : Prop :=
  Forall (fun row : dict => row !! "task_id" ≠ Some (Some "")) rows.

(** Every [due_date] is absent, empty or a date. *)
Definition due_dates_ok (rows : list dict) : Prop :=
  Forall (fun row : dict =>
            ∃ d, _validate_date (dict_get row "due_date") "due_date" = Ok d) rows.

(** The date the [due_date] parses to, when it is present and parses. *)
Definition due_of (row : dict) : option date :=
  s ← dict_get row "due_date"; strptime_ymd s.

(** The [due_date] is present and parses to a date strictly before
    [today], and the status is not Completed. *)
Definition is_overdue (today : date) (row : dict) : bool :=
  match due_of row with
  | Some d => date_ltb d today
              && negb (bool_decide (dict_get row "status" = Some "Completed"))
  | None => false
  end.

(** The day before [d]. *)
Definition yesterday (d : date) : date :=
  if (1 <? day d)%Z then mk_date (year d) (month d) (day d - 1)
  else if (1 <? month d)%Z
       then mk_date (year d) (month d - 1) (days_in_month (year d) (month d - 1))
       else mk_date (year d - 1) 12 31.

(** [k1 <= k2] on sort keys: [k2] is not smaller than [k1]. *)
Definition key_le (k1 k2 : nat * date) : Prop := key_ltb k2 k1 = false.

(** The rows whose composite sort key is [k]. *)
Definition has_key (k : nat * date) (row : dict) : bool :=
  bool_decide (sort_key row = Ok k).

(** The invariants of the data model, on the rows of a table: every column
    is present, the [task_id] is a string, the ids are pairwise distinct,
    and every record passes the validation against the table. *)
Definition table_invariants (rows : list dict) : Prop :=
  Forall (fun row : dict => ∀ col, col ∈ COLUMNS → is_Some (row !! col)) rows
  ∧ Forall (fun row : dict => is_Some (dict_get row "task_id")) rows
  ∧ distinct_ids rows
  ∧ Forall (fun row : dict => _validate_task_record row rows = Ok tt) rows.

(** What a record that passes the checks of the fields looks like. *)
Definition fields_ok (task : dict) : Prop :=
  (∃ s, dict_get_default task "task_name" (Some "") = Some s ∧ strip s ≠ "")
  ∧ value_in (dict_get task "priority") PRIORITIES = true
  ∧ value_in (dict_get task "status") STATUSES = true
  ∧ ∃ start due completion,
      _validate_date (dict_get task "start_date") "start_date" = Ok start
      ∧ _validate_date (dict_get task "due_date") "due_date" = Ok due
      ∧ _validate_date (dict_get task "completion_date") "completion_date"
        = Ok completion
      ∧ both_and_gt start due = false
      ∧ (negb (is_none_or_empty (dict_get task "completion_date"))
         && negb (bool_decide (dict_get task "status" = Some "Completed")))
        = false
      ∧ both_and_gt start completion = false.

Definition id_unique (task : dict) (table : list dict) : Prop :=
  ∃ ids tid, task_ids table = Ok ids ∧ task !! "task_id" = Some tid
             ∧ (count_value tid ids ≤ 1)%nat.


(** A date of the calendar: what [datetime.date] can hold. *)
Definition valid_date (d : date) : Prop :=
  (1 <= year d <= 9999 ∧ 1 <= month d <= 12
   ∧ 1 <= day d <= days_in_month (year d) (month d))%Z.

(** A record as an import builds it: its keys are the columns, no field
    holds the empty string, and [last_updated] holds a string. *)
Definition csv_normal (row : dict) : Prop :=
  (∀ col, is_Some (row !! col) ↔ col ∈ COLUMNS)
  ∧ (∀ col, row !! col ≠ Some (Some ""))
  ∧ truthy (dict_get row "last_updated") = true.

(** ** Example data *)

(** A full record, as [add_task] stores it. *)
Definition record (task_id task_name priority status : string)
    (start_date due_date completion_date : value) : dict :=
  list_to_map
    [ ("task_id", Some task_id); ("task_name", Some task_name);
      ("description", Some ""); ("category", None);
      ("priority", Some priority); ("status", Some status);
      ("start_date", start_date); ("due_date", due_date);
      ("completion_date", completion_date); ("assigned_to", None);
      ("notes", None); ("last_updated", Some "2024-01-01T00:00:00") ].

(** What a caller passes to [add_task]. *)
Definition new_data (task_id : value) (task_name : string) : dict :=
  list_to_map
    [ ("task_id", task_id); ("task_name", Some task_name);
      ("priority", Some "Low"); ("status", Some "To Do") ].

(** A store with the table [[row]] at the reference 1. *)
Definition store_with (row : dict) : heap :=
  <[1%positive := OList [2%positive]]> {[ 2%positive := ODict row ]}.

Definition row_T1 : dict :=
  record "T1" "Write report" "High" "Completed" None None (Some "2024-01-05").

Definition row_empty_id : dict :=
  record "" "Write report" "High" "To Do" None None None.

Definition task_A : dict :=
  record "A" "Task A" "High" "To Do" None (Some "2024-01-10") None.
Definition task_B : dict :=
  record "B" "Task B" "High" "To Do" None (Some "2024-01-05") None.
Definition task_C : dict :=
  record "C" "Task C" "Low" "To Do" None (Some "2024-01-01") None.

Definition task_bad_due : dict :=
  record "D" "Task D" "Low" "To Do" None (Some "next week") None.

(** A record of the command line: the description is the empty string, the
    category is absent. *)
Definition task_E : dict :=
  record "E" "Task E" "Medium" "In Progress" (Some "2024-01-02")
    (Some "2024-01-09") None.

Definition task_done : dict :=
  record "F" "Task F" "Low" "Completed" None None (Some "2024-01-03").

(** A table of [n] records of which [c] are Completed. *)
Definition table_of (c n : nat) : list dict :=
  replicate c task_done ++ replicate (n - c) task_A.

(** * Properties *)

(** An equation between closed terms, checked by evaluation. *)
Ltac vm_refl :=
  lazymatch goal with
  | |- ?x = ?y =>
      tryif has_evar y then (vm_compute; reflexivity)
      else vm_cast_no_check (@eq_refl _ y)
  end.

(** One step of a computation in [result]: the bind on a known result. *)
Ltac rstep := unfold mbind, result_bind; lazy beta iota zeta.

Ltac in_list :=
  repeat first [apply list_elem_of_here | apply list_elem_of_further].


Lemma result_bind_Ok {A B : Type} (a : A) (k : A → result B) :
  (Ok a ≫= k) = k a.
Proof. reflexivity. Qed.

(** ** Strings *)

Lemma lstrip_empty (s : string) : lstrip s = "" → all_space s = true.
Proof.
  induction s as [|c r IH]; simpl; [done|].
  destruct (isspace c); simpl; [exact IH | discriminate].
Qed.

Lemma all_space_lstrip (s : string) : all_space s = true → lstrip s = "".
Proof.
  induction s as [|c r IH]; simpl; [done|].
  destruct (isspace c); simpl; [exact IH | discriminate].
Qed.

Lemma rstrip_nonspace (c : ascii) (r : string) :
  isspace c = false → rstrip (String c r) ≠ "".
Proof.
  intros Hc. simpl. destruct (rstrip r); [rewrite Hc|]; discriminate.
Qed.

Lemma lstrip_head (s : string) :
  lstrip s = "" ∨ ∃ c r, lstrip s = String c r ∧ isspace c = false.
Proof.
  induction s as [|c r IH]; simpl; [by left|].
  destruct (isspace c) eqn:Hc; [exact IH|]. right. by exists c, r.
Qed.

Lemma strip_empty_iff (s : string) : strip s = "" ↔ all_space s = true.
Proof.
  unfold strip. split.
  - intros H. destruct (lstrip_head s) as [E|(c & r & E & Hc)].
    + by apply lstrip_empty.
    + rewrite E in H. by apply rstrip_nonspace in H.
  - intros H. by rewrite (all_space_lstrip _ H).
Qed.

(** ** The store *)

Lemma fresh_loc_None (h : heap) : h !! fresh (dom h) = None.
Proof. apply not_elem_of_dom, is_fresh. Qed.

Lemma alloc_subseteq (h h0 : heap) (o : obj) :
  h0 ⊆ h → h0 ⊆ <[fresh (dom h) := o]> h.
Proof.
  intros H. etrans; [exact H|]. apply insert_subseteq, fresh_loc_None.
Qed.

Lemma subseteq_None (h0 h : heap) (l : loc) :
  h0 ⊆ h → h !! l = None → h0 !! l = None.
Proof.
  intros H Hl. destruct (h0 !! l) eqn:E; [|done].
  eapply lookup_weaken in E; [|exact H]. congruence.
Qed.

Lemma write_subseteq (h h0 : heap) (l : loc) (o : obj) :
  h0 ⊆ h → h0 !! l = None → h0 ⊆ <[l := o]> h.
Proof. intros H Hl. by apply insert_subseteq_r. Qed.

Lemma heap_list_mono (h h' : heap) (l : loc) (items : list loc) :
  h ⊆ h' → heap_list h l = Ok items → heap_list h' l = Ok items.
Proof.
  unfold heap_list. intros H E. destruct (h !! l) as [[]|] eqn:Hl; simplify_eq.
  by rewrite (lookup_weaken _ _ _ _ Hl H).
Qed.

Lemma heap_dict_mono (h h' : heap) (l : loc) (d : dict) :
  h ⊆ h' → heap_dict h l = Ok d → heap_dict h' l = Ok d.
Proof.
  unfold heap_dict. intros H E. destruct (h !! l) as [[]|] eqn:Hl; simplify_eq.
  by rewrite (lookup_weaken _ _ _ _ Hl H).
Qed.

Lemma heap_dicts_mono (h h' : heap) (items : list loc) (rows : list dict) :
  h ⊆ h' → heap_dicts h items = Ok rows → heap_dicts h' items = Ok rows.
Proof.
  intros H. revert rows. induction items as [|l items IH]; intros rows; simpl; [done|].
  destruct (heap_dict h l) as [d|] eqn:Hd; simpl; [|done].
  rewrite (heap_dict_mono _ _ _ _ H Hd). simpl.
  destruct (heap_dicts h items) as [ds|] eqn:Hds; simpl; [|done].
  by rewrite (IH ds).
Qed.

Lemma heap_rows_mono (h h' : heap) (t : loc) (rows : list dict) :
  h ⊆ h' → heap_rows h t = Ok rows → heap_rows h' t = Ok rows.
Proof.
  unfold heap_rows. intros H E.
  destruct (heap_list h t) as [items|] eqn:Hl; simpl in *; [|done].
  rewrite (heap_list_mono _ _ _ _ H Hl). simpl. by apply (heap_dicts_mono h).
Qed.

Lemma heap_rows_inv (h : heap) (t : loc) (rows : list dict) :
  heap_rows h t = Ok rows →
  ∃ items, heap_list h t = Ok items ∧ heap_dicts h items = Ok rows.
Proof.
  unfold heap_rows. destruct (heap_list h t) as [items|]; simpl; [|done].
  intros H. by exists items.
Qed.

Lemma heap_dicts_app (h : heap) (items : list loc) (rows : list dict)
    (l : loc) (d : dict) :
  heap_dicts h items = Ok rows → heap_dict h l = Ok d →
  heap_dicts h (items ++ [l]) = Ok (rows ++ [d]).
Proof.
  intros H Hd. revert rows H.
  induction items as [|x items IH]; intros rows H; simpl in *.
  - simplify_eq. by rewrite Hd.
  - destruct (heap_dict h x) as [dx|]; simpl in *; [|done].
    destruct (heap_dicts h items) as [ds|]; simpl in *; [|done].
    simplify_eq. by rewrite (IH ds).
Qed.

Lemma heap_list_insert (h : heap) (l : loc) (items : list loc) :
  heap_list (<[l := OList items]> h) l = Ok items.
Proof. unfold heap_list. by rewrite lookup_insert_eq. Qed.

Lemma heap_dict_insert (h : heap) (l : loc) (d : dict) :
  heap_dict (<[l := ODict d]> h) l = Ok d.
Proof. unfold heap_dict. by rewrite lookup_insert_eq. Qed.

(** What each operation on the store does on a store that holds what it
    reads. *)

Lemma run_list_copy (h : heap) (t : loc) (items : list loc) :
  heap_list h t = Ok items →
  list_copy t h = (<[fresh (dom h) := OList items]> h, Ok (fresh (dom h))).
Proof. intros E. unfold list_copy, read_list, alloc, mbind, M_bind. by rewrite E. Qed.

Lemma run_list_concat1 (h : heap) (t x : loc) (items : list loc) :
  heap_list h t = Ok items →
  list_concat1 t x h
  = (<[fresh (dom h) := OList (items ++ [x])]> h, Ok (fresh (dom h))).
Proof. intros E. unfold list_concat1, read_list, alloc, mbind, M_bind. by rewrite E. Qed.

Lemma run_list_append (h : heap) (t x : loc) (items : list loc) :
  heap_list h t = Ok items →
  list_append t x h = (<[t := OList (items ++ [x])]> h, Ok tt).
Proof. intros E. unfold list_append, read_list, write, mbind, M_bind. by rewrite E. Qed.

Lemma run_list_setitem (h : heap) (t x : loc) (idx : nat) (items : list loc) :
  heap_list h t = Ok items → idx < length items →
  list_setitem t idx x h = (<[t := OList (<[idx := x]> items)]> h, Ok tt).
Proof.
  intros E Hlt. unfold list_setitem, read_list, write, mbind, M_bind.
  rewrite E. by rewrite bool_decide_true.
Qed.

Lemma run_dict_setitem (h : heap) (l : loc) (k : string) (v : value) (d : dict) :
  heap_dict h l = Ok d →
  dict_setitem l k v h = (<[l := ODict (<[k := v]> d)]> h, Ok tt).
Proof. intros E. unfold dict_setitem, read_dict, write, mbind, M_bind. by rewrite E. Qed.

Lemma run_validate_at (h : heap) (task table : loc) (d : dict) (rows : list dict) :
  heap_dict h task = Ok d → heap_rows h table = Ok rows →
  validate_at task table h = (h, _validate_task_record d rows).
Proof.
  intros E1 E2. unfold validate_at, read_dict, read_rows, lift, mbind, M_bind.
  by rewrite E1, E2.
Qed.

Lemma heap_rows_intro (h : heap) (t : loc) (items : list loc) (rows : list dict) :
  heap_list h t = Ok items → heap_dicts h items = Ok rows →
  heap_rows h t = Ok rows.
Proof. intros E1 E2. unfold heap_rows. by rewrite E1. Qed.

Lemma add_task_refines (h : heap) (t : loc) (rows : list dict)
    (task_data : dict) (uuid4 now_iso : string) :
  heap_rows h t = Ok rows →
  ∃ h' r, add_task t task_data uuid4 now_iso h = (h', r) ∧ h ⊆ h' ∧
    match add_task_rows rows task_data uuid4 now_iso with
    | Err e => r = Err e
    | Ok rows' => ∃ t', r = Ok t' ∧ heap_rows h' t' = Ok rows' ∧ h !! t' = None
    end.
Proof.
  intros Hrows. destruct (heap_rows_inv _ _ _ Hrows) as (items & Hl & Hds).
  unfold add_task, add_task_rows.
  set (task_id := or_str (dict_get task_data "task_id") uuid4).
  set (base := _ensure_columns _).
  unfold mbind at 1, M_bind at 1. rewrite (run_list_copy _ _ _ Hl).
  set (l1 := fresh (dom h)). set (h1 := <[l1 := OList items]> h).
  assert (Hl1 : h !! l1 = None) by apply fresh_loc_None.
  assert (H1 : h ⊆ h1) by by apply insert_subseteq.
  assert (Hi1 : heap_list h1 l1 = Ok items) by apply heap_list_insert.
  assert (Hr1 : heap_rows h1 l1 = Ok rows).
  { eapply heap_rows_intro; [exact Hi1|]. by eapply heap_dicts_mono. }
  unfold mbind at 1, M_bind at 1, read_rows. rewrite Hr1.
  unfold mbind at 1, M_bind at 1, lift.
  destruct (any_task_id_eq rows (Some task_id)) as [[|]|e] eqn:Hany; lazy beta iota.
  - eexists _, _. split; [reflexivity|]. by split.
  - unfold mbind at 1, M_bind at 1, alloc.
    set (l2 := fresh (dom h1)). set (h2 := <[l2 := ODict base]> h1).
    assert (Hl2 : h1 !! l2 = None) by apply fresh_loc_None.
    assert (H2 : h1 ⊆ h2) by by apply insert_subseteq.
    assert (Hd2 : heap_dict h2 l2 = Ok base) by apply heap_dict_insert.
    unfold mbind at 1, M_bind at 1.
    rewrite (run_list_concat1 h2 l1 l2 items) by by eapply heap_list_mono.
    set (l3 := fresh (dom h2)). set (h3 := <[l3 := OList (items ++ [l2])]> h2).
    assert (Hl3 : h2 !! l3 = None) by apply fresh_loc_None.
    assert (H3 : h2 ⊆ h3) by by apply insert_subseteq.
    assert (Hr3 : heap_rows h3 l3 = Ok (rows ++ [base])).
    { eapply heap_rows_intro; [apply heap_list_insert|].
      apply heap_dicts_app.
      - eapply heap_dicts_mono; [|exact Hds]. by do 2 (etrans; [|eassumption]).
      - by eapply heap_dict_mono. }
    unfold mbind at 1, M_bind at 1.
    rewrite (run_validate_at h3 l2 l3 base (rows ++ [base]))
      by (done || by eapply heap_dict_mono).
    assert (H03 : h ⊆ h3) by by do 2 (etrans; [|eassumption]).
    destruct (_validate_task_record base (rows ++ [base])) as [[]|e]; simpl.
    + unfold mbind at 1, M_bind at 1.
      rewrite (run_list_append h3 l1 l2 items)
        by (eapply heap_list_mono; [|exact Hi1]; by etrans).
      unfold mret, M_ret.
      set (h4 := <[l1 := OList (items ++ [l2])]> h3).
      assert (H04 : h ⊆ h4) by by apply write_subseteq.
      eexists _, _. split; [reflexivity|]. split; [done|].
      exists l1. split; [done|]. split; [|done].
      eapply heap_rows_intro; [apply heap_list_insert|].
      apply heap_dicts_app.
      * by eapply heap_dicts_mono.
      * assert (Hne : l1 ≠ l2).
        { intros E. rewrite <- E in Hl2. unfold h1 in Hl2.
          by rewrite lookup_insert_eq in Hl2. }
        unfold heap_dict, h4. rewrite lookup_insert_ne by done.
        apply (heap_dict_mono h2 h3) in Hd2; [|done]. exact Hd2.
    + eexists _, _. split; [reflexivity|]. by split.
  - eexists _, _. split; [reflexivity|]. by split.
Qed.

Lemma heap_dicts_insert (h : heap) (items : list loc) (rows : list dict)
    (i : nat) (l : loc) (d : dict) :
  heap_dicts h items = Ok rows → heap_dict h l = Ok d →
  heap_dicts h (<[i := l]> items) = Ok (<[i := d]> rows).
Proof.
  intros H Hd. revert i rows H.
  induction items as [|x items IH]; intros i rows H; simpl in *.
  - by simplify_eq.
  - destruct (heap_dict h x) as [dx|] eqn:Hx; simpl in *; [|done].
    destruct (heap_dicts h items) as [ds|] eqn:Hds; simpl in *; [|done].
    simplify_eq. destruct i as [|i]; simpl.
    + by rewrite Hd, Hds.
    + by rewrite Hx, (IH i ds).
Qed.

Lemma heap_dicts_length (h : heap) (items : list loc) (rows : list dict) :
  heap_dicts h items = Ok rows → length items = length rows.
Proof.
  revert rows. induction items as [|x items IH]; intros rows H; simpl in *.
  - by simplify_eq.
  - destruct (heap_dict h x); simpl in *; [|done].
    destruct (heap_dicts h items) as [ds|]; simpl in *; [|done].
    simplify_eq. simpl. by rewrite (IH ds).
Qed.

Lemma update_loop_refines (h h1 : heap) (nt : loc) (all_items : list loc)
    (all_rows : list dict) (task_id : string) (updates : dict) (now_iso : string) :
  h ⊆ h1 → h !! nt = None → heap_list h1 nt = Ok all_items →
  heap_dicts h all_items = Ok all_rows →
  ∀ (rest : list loc) (rest_rows : list dict) (idx : nat),
    heap_dicts h rest = Ok rest_rows →
    idx + length rest = length all_items →
    ∃ h' r,
      update_loop nt task_id updates now_iso idx rest h1 = (h', r) ∧ h ⊆ h' ∧
      match found ← find_task rest_rows task_id idx;
            update_found all_rows task_id updates now_iso found with
      | Err e => r = Err e
      | Ok rows' => ∃ t', r = Ok t' ∧ heap_rows h' t' = Ok rows' ∧ h !! t' = None
      end.
Proof.
  intros H1 Hnt Hl Hall rest.
  induction rest as [|x rest IH]; intros rest_rows idx Hrest Hlen; simpl in *.
  - simplify_eq. simpl. eexists _, _. split; [reflexivity|]. by split.
  - destruct (heap_dict h x) as [row|] eqn:Hx; simpl in *; [|done].
    destruct (heap_dicts h rest) as [ds|] eqn:Hds; simpl in *; [|done].
    simplify_eq. simpl.
    unfold mbind at 1, M_bind at 1, read_dict.
    rewrite (heap_dict_mono _ _ _ _ H1 Hx).
    unfold mbind at 1, M_bind at 1, lift.
    destruct (dict_index row "task_id") as [v|e]; simpl;
      [|eexists _, _; split; [reflexivity|]; by split].
    case_bool_decide as Hv; lazy beta iota.
    + rewrite result_bind_Ok. unfold update_found. lazy beta iota zeta.
      unfold mbind at 1, M_bind at 1, alloc.
      set (l2 := fresh (dom h1)).
      assert (Hl2 : h1 !! l2 = None) by apply fresh_loc_None.
      assert (Hl2' : h !! l2 = None) by by eapply subseteq_None.
      assert (Hne : nt ≠ l2).
      { intros E. rewrite <- E in Hl2. unfold heap_list in Hl. by rewrite Hl2 in Hl. }
      unfold mbind at 1, M_bind at 1.
      rewrite (run_dict_setitem _ l2 _ _ _ (heap_dict_insert _ _ _)).
      rewrite insert_insert_eq.
      unfold mbind at 1, M_bind at 1.
      rewrite (run_dict_setitem _ l2 _ _ _ (heap_dict_insert _ _ _)).
      rewrite insert_insert_eq.
      fold (merged_row row task_id updates now_iso).
      set (merged := merged_row row task_id updates now_iso).
      set (h2 := <[l2 := ODict merged]> h1).
      assert (H2 : h ⊆ h2) by (apply write_subseteq; done).
      assert (Hl' : heap_list h2 nt = Ok all_items).
      { unfold heap_list, h2. rewrite lookup_insert_ne by done. exact Hl. }
      unfold mbind at 1, M_bind at 1.
      rewrite (run_list_setitem h2 nt l2 idx all_items Hl') by lia.
      set (h3 := <[nt := OList (<[idx := l2]> all_items)]> h2).
      assert (H3 : h ⊆ h3) by (apply write_subseteq; done).
      assert (Hd3 : heap_dict h3 l2 = Ok merged).
      { unfold heap_dict, h3. rewrite lookup_insert_ne by done.
        unfold h2. by rewrite lookup_insert_eq. }
      assert (Hr3 : heap_rows h3 nt = Ok (<[idx := merged]> all_rows)).
      { eapply heap_rows_intro; [apply heap_list_insert|].
        apply heap_dicts_insert; [|done]. by eapply heap_dicts_mono. }
      unfold mbind at 1, M_bind at 1.
      rewrite (run_validate_at h3 l2 nt _ _ Hd3 Hr3).
      destruct (_validate_task_record merged (<[idx:=merged]> all_rows)) as [[]|e];
        rstep.
      * eexists _, _. split; [reflexivity|]. split; [done|]. by exists nt.
      * eexists _, _. split; [reflexivity|]. by split.
    + apply (IH ds (S idx)); [done|lia].
Qed.

Lemma update_task_refines (h : heap) (t : loc) (rows : list dict)
    (task_id : string) (updates : dict) (now_iso : string) :
  heap_rows h t = Ok rows →
  ∃ h' r, update_task t task_id updates now_iso h = (h', r) ∧ h ⊆ h' ∧
    match update_task_rows rows task_id updates now_iso with
    | Err e => r = Err e
    | Ok rows' => ∃ t', r = Ok t' ∧ heap_rows h' t' = Ok rows' ∧ h !! t' = None
    end.
Proof.
  intros Hrows. destruct (heap_rows_inv _ _ _ Hrows) as (items & Hl & Hds).
  unfold update_task, update_task_rows.
  destruct (changes_task_id updates task_id).
  { eexists _, _. split; [reflexivity|]. by split. }
  unfold mbind at 1, M_bind at 1. rewrite (run_list_copy _ _ _ Hl).
  set (l1 := fresh (dom h)). set (h1 := <[l1 := OList items]> h).
  assert (Hl1 : h !! l1 = None) by apply fresh_loc_None.
  assert (H1 : h ⊆ h1) by by apply insert_subseteq.
  assert (Hi1 : heap_list h1 l1 = Ok items) by apply heap_list_insert.
  unfold mbind at 1, M_bind at 1, read_list. rewrite Hi1.
  by apply (update_loop_refines h h1 l1 items rows).
Qed.

(** ** Records and ids *)

Lemma lookup_ensure_columns (d : dict) (col : string) :
  _ensure_columns d !! col
  = if decide (col ∈ COLUMNS) then Some (dict_get d col) else None.
Proof.
  unfold _ensure_columns. induction COLUMNS as [|c l IH]; simpl.
  - rewrite lookup_empty.
    destruct (decide (col ∈ [])) as [H|H]; [by apply elem_of_nil in H|done].
  - rewrite lookup_insert. destruct (decide (c = col)) as [->|Hc].
    + by rewrite decide_True by apply list_elem_of_here.
    + rewrite IH.
      destruct (decide (col ∈ l)) as [H1|H1];
        destruct (decide (col ∈ c :: l)) as [H2|H2]; try done.
      * exfalso. apply H2. by apply list_elem_of_further.
      * exfalso. apply elem_of_cons in H2 as [E|E]; [by subst|done].
Qed.

Lemma ensure_columns_task_id (d : dict) :
  _ensure_columns d !! "task_id" = Some (dict_get d "task_id").
Proof.
  rewrite lookup_ensure_columns.
  by rewrite decide_True by (unfold COLUMNS; in_list).
Qed.

Lemma ensure_columns_task_name (d : dict) :
  _ensure_columns d !! "task_name" = Some (dict_get d "task_name").
Proof.
  rewrite lookup_ensure_columns.
  by rewrite decide_True by (unfold COLUMNS; in_list).
Qed.

Lemma task_ids_app (rows : list dict) (ids : list value) (row : dict) (v : value) :
  task_ids rows = Ok ids → row !! "task_id" = Some v →
  task_ids (rows ++ [row]) = Ok (ids ++ [v]).
Proof.
  intros H Hv. revert ids H.
  induction rows as [|r rows IH]; intros ids H; simpl in *.
  - simplify_eq. unfold dict_index. by rewrite Hv.
  - destruct (dict_index r "task_id") as [x|]; simpl in *; [|done].
    destruct (task_ids rows) as [xs|]; simpl in *; [|done].
    simplify_eq. by rewrite (IH xs).
Qed.

Lemma any_task_id_eq_false (rows : list dict) (v : value) :
  any_task_id_eq rows v = Ok false ↔ ∃ ids, task_ids rows = Ok ids ∧ v ∉ ids.
Proof.
  induction rows as [|r rows IH]; simpl.
  - split; [intros _; exists []; split; [done|apply not_elem_of_nil]|done].
  - destruct (dict_index r "task_id") as [x|e]; simpl.
    + case_bool_decide as Hx.
      * split; [done|]. intros (ids & H & Hn).
        destruct (task_ids rows); simpl in *; simplify_eq.
        exfalso. apply Hn. apply list_elem_of_here.
      * rewrite IH. split.
        -- intros (ids & -> & Hn). exists (x :: ids). split; [done|].
           rewrite not_elem_of_cons. by split; [congruence|].
        -- intros (ids & H & Hn). destruct (task_ids rows) as [xs|]; simpl in *; simplify_eq.
           exists xs. split; [done|]. rewrite not_elem_of_cons in Hn. tauto.
    + split; [done|]. by intros (ids & H & _).
Qed.

Lemma any_task_id_eq_true (rows : list dict) (ids : list value) (v : value) :
  task_ids rows = Ok ids → v ∈ ids → any_task_id_eq rows v = Ok true.
Proof.
  revert ids. induction rows as [|r rows IH]; intros ids H Hin; simpl in *.
  - simplify_eq. by apply elem_of_nil in Hin.
  - destruct (dict_index r "task_id") as [x|e]; simpl in *; [|done].
    destruct (task_ids rows) as [xs|]; simpl in *; [|done]. simplify_eq.
    case_bool_decide as Hx; [done|]. apply (IH xs); [done|].
    apply elem_of_cons in Hin as [->|]; done.
Qed.

(** The record [add_task] builds carries the id it has chosen. *)
Lemma add_task_rows_Ok (rows : list dict) (task_data : dict)
    (uuid4 now_iso : string) (rows' : list dict) :
  add_task_rows rows task_data uuid4 now_iso = Ok rows' →
  ∃ base, rows' = rows ++ [base]
    ∧ base !! "task_id" = Some (Some (or_str (dict_get task_data "task_id") uuid4))
    ∧ any_task_id_eq rows (Some (or_str (dict_get task_data "task_id") uuid4))
      = Ok false
    ∧ _validate_task_record base rows' = Ok tt.
Proof.
  unfold add_task_rows.
  destruct (any_task_id_eq rows _) as [[|]|e] eqn:Hany; rstep; try done.
  set (base := _ensure_columns _).
  destruct (_validate_task_record base (rows ++ [base])) as [[]|e] eqn:Hv;
    simpl; [|done].
  intros [= <-]. exists base. repeat split; try done.
  unfold base. rewrite ensure_columns_task_id. unfold dict_get.
  rewrite lookup_insert_ne by done. by rewrite lookup_insert_eq.
Qed.

Lemma add_task_rows_distinct (rows : list dict) (task_data : dict)
    (uuid4 now_iso : string) (rows' : list dict) :
  distinct_ids rows →
  add_task_rows rows task_data uuid4 now_iso = Ok rows' →
  distinct_ids rows'.
Proof.
  intros (ids & Hids & Hnd) H.
  apply add_task_rows_Ok in H as (base & -> & Hb & Hany & _).
  apply any_task_id_eq_false in Hany as (ids' & Hids' & Hn).
  rewrite Hids in Hids'. simplify_eq.
  eexists. split; [by eapply task_ids_app|].
  apply NoDup_app. split; [done|]. split.
  - intros x Hx Hx'. apply list_elem_of_singleton in Hx'. by subst.
  - apply NoDup_singleton.
Qed.

Lemma or_str_nonempty (v : value) (s : string) : s ≠ "" → or_str v s ≠ "".
Proof. intros Hs. destruct v as [x|]; simpl; [case_bool_decide|]; done. Qed.

Lemma add_task_rows_no_empty_id (rows : list dict) (task_data : dict)
    (uuid4 now_iso : string) (rows' : list dict) :
  uuid4 ≠ "" → no_empty_id rows →
  add_task_rows rows task_data uuid4 now_iso = Ok rows' →
  no_empty_id rows'.
Proof.
  intros Hu Hrows H.
  apply add_task_rows_Ok in H as (base & -> & Hb & _).
  apply Forall_app. split; [done|]. apply Forall_singleton.
  rewrite Hb. intros [= E]. by apply (or_str_nonempty _ _ Hu) in E.
Qed.

(** A property of the rows that every successful [add_task] keeps is kept
    by a caller that adds one task after the other. *)
Lemma add_tasks_invariant (P : list dict → Prop)
    (Q : dict * string * string → Prop) :
  (∀ rows d u n rows',
     Q (d, u, n) → P rows → add_task_rows rows d u n = Ok rows' → P rows') →
  ∀ calls h t rows t',
    Forall Q calls → heap_rows h t = Ok rows → P rows →
    (add_tasks t calls h).2 = Ok t' →
    ∃ rows', heap_rows (add_tasks t calls h).1 t' = Ok rows' ∧ P rows'.
Proof.
  intros Hstep calls.
  induction calls as [|[[d u] n] calls IH]; intros h t rows t' HQ Hrows HP Hok;
    simpl in *.
  - unfold mret, M_ret in *. simpl in *. simplify_eq. by exists rows.
  - apply Forall_cons in HQ as [Hq HQ].
    destruct (add_task_refines h t rows d u n Hrows) as (h1 & r1 & Hrun & _ & Hr).
    unfold mbind, M_bind in *. rewrite Hrun in *.
    destruct (add_task_rows rows d u n) as [rows1|e] eqn:Hadd.
    + destruct Hr as (t1 & -> & Hrows1 & _).
      apply (IH h1 t1 rows1 t'); eauto.
    + subst r1. done.
Qed.

(** ** What the caller of a mutation sees *)

Lemma add_task_Err (h : heap) (t : loc) (rows : list dict) (task_data : dict)
    (uuid4 now_iso : string) (e : exn) :
  heap_rows h t = Ok rows →
  add_task_rows rows task_data uuid4 now_iso = Err e →
  ∃ h', add_task t task_data uuid4 now_iso h = (h', Err e)
        ∧ heap_rows h' t = Ok rows ∧ h ⊆ h'.
Proof.
  intros Hrows He.
  destruct (add_task_refines h t rows task_data uuid4 now_iso Hrows)
    as (h' & r & Hrun & Hsub & Hr).
  rewrite He in Hr. subst r. exists h'. split; [done|]. split; [|done].
  by eapply heap_rows_mono.
Qed.

Lemma add_task_Ok (h : heap) (t : loc) (rows : list dict) (task_data : dict)
    (uuid4 now_iso : string) (h' : heap) (t' : loc) :
  heap_rows h t = Ok rows →
  add_task t task_data uuid4 now_iso h = (h', Ok t') →
  ∃ rows', add_task_rows rows task_data uuid4 now_iso = Ok rows'
           ∧ heap_rows h' t' = Ok rows' ∧ heap_rows h' t = Ok rows ∧ h ⊆ h'.
Proof.
  intros Hrows Hrun.
  destruct (add_task_refines h t rows task_data uuid4 now_iso Hrows)
    as (h1 & r & Hrun' & Hsub & Hr).
  rewrite Hrun in Hrun'. simplify_eq.
  destruct (add_task_rows rows task_data uuid4 now_iso) as [rows'|e]; [|done].
  destruct Hr as (t1 & [= <-] & Hr & _). exists rows'.
  repeat split; try done. by eapply heap_rows_mono.
Qed.

Lemma update_task_Err (h : heap) (t : loc) (rows : list dict) (task_id : string)
    (updates : dict) (now_iso : string) (e : exn) :
  heap_rows h t = Ok rows →
  update_task_rows rows task_id updates now_iso = Err e →
  ∃ h', update_task t task_id updates now_iso h = (h', Err e)
        ∧ heap_rows h' t = Ok rows ∧ h ⊆ h'.
Proof.
  intros Hrows He.
  destruct (update_task_refines h t rows task_id updates now_iso Hrows)
    as (h' & r & Hrun & Hsub & Hr).
  rewrite He in Hr. subst r. exists h'. split; [done|]. split; [|done].
  by eapply heap_rows_mono.
Qed.

Lemma update_task_unchanged (h : heap) (t : loc) (rows : list dict)
    (task_id : string) (updates : dict) (now_iso : string) :
  heap_rows h t = Ok rows →
  heap_rows (update_task t task_id updates now_iso h).1 t = Ok rows
  ∧ h ⊆ (update_task t task_id updates now_iso h).1.
Proof.
  intros Hrows.
  destruct (update_task_refines h t rows task_id updates now_iso Hrows)
    as (h' & r & Hrun & Hsub & Hr).
  rewrite Hrun. simpl. split; [|done]. by eapply heap_rows_mono.
Qed.

(** ** Validation of the name *)

Lemma validate_blank_name (task : dict) (table : list dict) (name : string) :
  task !! "task_name" = Some (Some name) → all_space name = true →
  _validate_task_record task table = Err (ValueError "task_name is required").
Proof.
  intros Hn Hsp. unfold _validate_task_record, dict_get_default.
  rewrite Hn. simpl. apply strip_empty_iff in Hsp. rewrite Hsp. done.
Qed.

Lemma validate_name_None (task : dict) (table : list dict) :
  task !! "task_name" = Some None →
  _validate_task_record task table
  = Err (AttributeError "'NoneType' object has no attribute 'strip'").
Proof.
  intros Hn. unfold _validate_task_record, dict_get_default. by rewrite Hn.
Qed.

Lemma new_task_name (task_data : dict) (task_id now_iso : string) :
  _ensure_columns (<["last_updated" := Some now_iso]>
                     (<["task_id" := Some task_id]> task_data)) !! "task_name"
  = Some (dict_get task_data "task_name").
Proof.
  rewrite ensure_columns_task_name. unfold dict_get.
  by rewrite !lookup_insert_ne by done.
Qed.

(** The slip behind the absent name: [_ensure_columns] binds a missing
    [task_name] to [None], so the default of [task.get("task_name", "")]
    is never used and [None.strip()] raises [AttributeError]. *)
Lemma add_task_absent_name (h : heap) (t : loc) (rows : list dict)
    (ids : list value) (task_data : dict) (uuid4 now_iso : string) :
  heap_rows h t = Ok rows →
  dict_get task_data "task_name" = None →
  task_ids rows = Ok ids →
  Some (or_str (dict_get task_data "task_id") uuid4) ∉ ids →
  (add_task t task_data uuid4 now_iso h).2
  = Err (AttributeError "'NoneType' object has no attribute 'strip'").
Proof.
  intros Hrows Hn Hids Hnin.
  assert (He : add_task_rows rows task_data uuid4 now_iso
               = Err (AttributeError "'NoneType' object has no attribute 'strip'")).
  { unfold add_task_rows.
    rewrite (proj2 (any_task_id_eq_false rows _)) by eauto. rstep.
    rewrite validate_name_None; [done|]. by rewrite new_task_name, Hn. }
  destruct (add_task_Err _ _ _ _ _ _ _ Hrows He) as (h' & -> & _). done.
Qed.

(** ** Claims about [add_task] *)

(** C3, as amended: for every table whose records all carry a [task_id]
    and every input data whose [task_name] is a string of whitespace only
    (the empty string included), if the id the new task gets is not in the
    table already, [add_task] raises [ValueError("task_name is required")]
    and the caller's table is unchanged. *)
Theorem add_task_blank_name_rejected (h : heap) (t : loc) (rows : list dict)
    (ids : list value) (task_data : dict) (name uuid4 now_iso : string) :
  heap_rows h t = Ok rows →
  task_data !! "task_name" = Some (Some name) →
  all_space name = true →
  task_ids rows = Ok ids →
  Some (or_str (dict_get task_data "task_id") uuid4) ∉ ids →
  ∃ h', add_task t task_data uuid4 now_iso h
        = (h', Err (ValueError "task_name is required"))
        ∧ heap_rows h' t = Ok rows ∧ h ⊆ h'.
Proof.
  intros Hrows Hn Hsp Hids Hnin. apply (add_task_Err h t rows); [done|].
  unfold add_task_rows.
  rewrite (proj2 (any_task_id_eq_false rows _)) by eauto. rstep.
  rewrite (validate_blank_name _ _ name); [done| |done].
  rewrite new_task_name. unfold dict_get. by rewrite Hn.
Qed.

Lemma add_task_blank_name_rejected_witness :
  ∃ h', add_task 1%positive (new_data None "  ") "u-1" "now" (store_with row_T1)
        = (h', Err (ValueError "task_name is required"))
        ∧ heap_rows h' 1%positive = Ok [row_T1] ∧ store_with row_T1 ⊆ h'.
Proof.
  apply (add_task_blank_name_rejected (store_with row_T1) 1%positive [row_T1]
           [Some "T1"] (new_data None "  ") "  " "u-1" "now").
  - vm_refl.
  - vm_refl.
  - vm_refl.
  - vm_refl.
  - vm_compute. intros H. apply list_elem_of_singleton in H. discriminate H.
Defined.

(** C3 as stated fails: with a blank name and an id that is in the table
    already, the error is the one of the duplicate id. *)
Lemma add_task_blank_name_counterexample :
  new_data (Some "T1") "  " !! "task_name" = Some (Some "  ")
  ∧ all_space "  " = true
  ∧ (add_task 1%positive (new_data (Some "T1") "  ") "u-1" "now"
       (store_with row_T1)).2
    = Err (ValueError "task_id must be unique")
  ∧ (add_task 1%positive (new_data (Some "T1") "  ") "u-1" "now"
       (store_with row_T1)).2
    ≠ Err (ValueError "task_name is required").
Proof.
  split; [vm_refl|]. split; [reflexivity|].
  assert (E : (add_task 1%positive (new_data (Some "T1") "  ") "u-1" "now"
                 (store_with row_T1)).2
              = Err (ValueError "task_id must be unique"))
    by (vm_refl).
  split; [exact E|]. rewrite E. discriminate.
Qed.

(** With no [task_name] at all, or with [None], the failure is an
    [AttributeError]. *)
Lemma add_task_absent_name_example :
  (add_task 1%positive (delete "task_name" (new_data None "x")) "u-1" "now"
     (store_with row_T1)).2
  = Err (AttributeError "'NoneType' object has no attribute 'strip'").
Proof. vm_refl. Qed.

(** C4, as amended: the [task_id] values stay pairwise distinct along every
    sequence of successful [add_task] calls that starts from a table with
    pairwise distinct ids; and for every table whose records all carry a
    [task_id] and every input data whose supplied [task_id] is a non-empty
    string that occurs in the table, [add_task] raises
    [ValueError("task_id must be unique")] and the caller's table is
    unchanged. *)
Theorem add_task_unique_ids :
  (∀ (calls : list (dict * string * string)) (h : heap) (t : loc)
     (rows : list dict) (t' : loc),
     heap_rows h t = Ok rows → distinct_ids rows →
     (add_tasks t calls h).2 = Ok t' →
     ∃ rows', heap_rows (add_tasks t calls h).1 t' = Ok rows'
              ∧ distinct_ids rows')
  ∧ (∀ (h : heap) (t : loc) (rows : list dict) (ids : list value)
       (task_data : dict) (s uuid4 now_iso : string),
       heap_rows h t = Ok rows → task_ids rows = Ok ids →
       task_data !! "task_id" = Some (Some s) → s ≠ "" → Some s ∈ ids →
       ∃ h', add_task t task_data uuid4 now_iso h
             = (h', Err (ValueError "task_id must be unique"))
             ∧ heap_rows h' t = Ok rows ∧ h ⊆ h').
Proof.
  split.
  - intros calls h t rows t' Hrows Hd Hok.
    apply (add_tasks_invariant distinct_ids (fun _ => True)
             (fun rows d u n rows' _ HP => add_task_rows_distinct rows d u n rows' HP)
             calls h t rows t'); try done.
    by apply Forall_true.
  - intros h t rows ids task_data s uuid4 now_iso Hrows Hids Hs Hne Hin.
    apply (add_task_Err h t rows); [done|]. unfold add_task_rows, dict_get.
    rewrite Hs. lazy zeta.
    assert (E : or_str (default None (Some (Some s))) uuid4 = s)
      by (simpl; by rewrite bool_decide_false).
    rewrite E.
    by rewrite (any_task_id_eq_true rows ids).
Qed.

Lemma add_task_unique_ids_witness :
  (∃ rows', heap_rows
              (add_tasks 1%positive
                 [(new_data None "a", "u-1", "n1"); (new_data (Some "T2") "b", "u-2", "n2")]
                 (store_with row_T1)).1 6%positive = Ok rows'
            ∧ distinct_ids rows')
  ∧ (∃ h', add_task 1%positive (new_data (Some "T1") "a") "u-1" "n1"
             (store_with row_T1)
           = (h', Err (ValueError "task_id must be unique"))
           ∧ heap_rows h' 1%positive = Ok [row_T1] ∧ store_with row_T1 ⊆ h').
Proof.
  split.
  - apply (proj1 add_task_unique_ids _ (store_with row_T1) 1%positive [row_T1]).
    + vm_refl.
    + exists [Some "T1"]. split; [vm_refl|]. apply NoDup_singleton.
    + vm_refl.
  - apply (proj2 add_task_unique_ids (store_with row_T1) 1%positive [row_T1]
             [Some "T1"] (new_data (Some "T1") "a") "T1" "u-1" "n1").
    + vm_refl.
    + vm_refl.
    + vm_refl.
    + discriminate.
    + apply list_elem_of_here.
Defined.

(** C4 as stated fails: a supplied [task_id] that is the empty string is
    replaced by a fresh one, also when the table holds a record whose id is
    the empty string, and the call succeeds. *)
Lemma add_task_unique_ids_counterexample :
  heap_rows (store_with row_empty_id) 1%positive = Ok [row_empty_id]
  ∧ task_ids [row_empty_id] = Ok [Some ""]
  ∧ new_data (Some "") "a" !! "task_id" = Some (Some "")
  ∧ (add_task 1%positive (new_data (Some "") "a") "u-1" "n1"
       (store_with row_empty_id)).2 = Ok 3%positive.
Proof. repeat split; vm_refl. Qed.

(** C10: a supplied empty [task_id] is treated as an absent one: the call
    does what it does without the field; when it succeeds the record it
    appends carries the generated id, which no record of the table had;
    and no table built by successful [add_task] calls from a table without
    an empty id (the empty table is one) holds an empty id, the generated
    ids being non-empty strings. *)
Theorem add_task_empty_id_as_absent :
  (∀ (t : loc) (task_data : dict) (uuid4 now_iso : string) (h : heap),
     add_task t (<["task_id" := Some ""]> task_data) uuid4 now_iso h
     = add_task t (delete "task_id" task_data) uuid4 now_iso h)
  ∧ (∀ (h h' : heap) (t t' : loc) (rows : list dict) (task_data : dict)
       (uuid4 now_iso : string),
       heap_rows h t = Ok rows →
       task_data !! "task_id" = Some (Some "") →
       add_task t task_data uuid4 now_iso h = (h', Ok t') →
       ∃ base ids, heap_rows h' t' = Ok (rows ++ [base])
                   ∧ base !! "task_id" = Some (Some uuid4)
                   ∧ task_ids rows = Ok ids ∧ Some uuid4 ∉ ids)
  ∧ (∀ (calls : list (dict * string * string)) (h : heap) (t : loc)
       (rows : list dict) (t' : loc),
       heap_rows h t = Ok rows → no_empty_id rows →
       Forall (fun c : dict * string * string => c.1.2 ≠ "") calls →
       (add_tasks t calls h).2 = Ok t' →
       ∃ rows', heap_rows (add_tasks t calls h).1 t' = Ok rows'
                ∧ no_empty_id rows').
Proof.
  split; [|split].
  - intros t task_data uuid4 now_iso h. unfold add_task, dict_get.
    rewrite lookup_insert_eq, lookup_delete_eq. simpl.
    by rewrite insert_insert_eq, insert_delete_eq.
  - intros h h' t t' rows task_data uuid4 now_iso Hrows Hid Hrun.
    destruct (add_task_Ok _ _ _ _ _ _ _ _ Hrows Hrun) as (rows' & Hadd & Hr & _).
    apply add_task_rows_Ok in Hadd as (base & -> & Hb & Hany & _).
    unfold dict_get in Hb, Hany. rewrite Hid in Hb, Hany. simpl in Hb, Hany.
    apply any_task_id_eq_false in Hany as (ids & Hids & Hn).
    by exists base, ids.
  - intros calls h t rows t' Hrows Hne HQ Hok.
    apply (add_tasks_invariant no_empty_id
             (fun c : dict * string * string => c.1.2 ≠ "")
             (fun rows d u n rows' Hu HP =>
                add_task_rows_no_empty_id rows d u n rows' Hu HP)
             calls h t rows t'); done.
Qed.

Lemma add_task_empty_id_as_absent_witness :
  (∃ base ids,
     heap_rows (add_task 1%positive (new_data (Some "") "a") "u-1" "n1"
                  (store_with row_T1)).1 3%positive = Ok ([row_T1] ++ [base])
     ∧ base !! "task_id" = Some (Some "u-1")
     ∧ task_ids [row_T1] = Ok ids ∧ Some "u-1" ∉ ids)
  ∧ (∃ rows', heap_rows
                (add_tasks 1%positive
                   [(new_data (Some "") "a", "u-1", "n1"); (new_data None "b", "u-2", "n2")]
                   (store_with row_T1)).1 6%positive = Ok rows'
              ∧ no_empty_id rows').
Proof.
  split.
  - apply (proj1 (proj2 add_task_empty_id_as_absent) (store_with row_T1) _
             1%positive 3%positive [row_T1] (new_data (Some "") "a") "u-1" "n1").
    + vm_refl.
    + vm_refl.
    + vm_refl.
  - apply (proj2 (proj2 add_task_empty_id_as_absent) _ (store_with row_T1)
             1%positive [row_T1]).
    + vm_refl.
    + apply Forall_singleton. vm_compute. discriminate.
    + repeat (apply Forall_cons; split; [discriminate|]). apply Forall_nil_2.
    + vm_refl.
Defined.

(** ** Claims about [update_task] *)

Lemma find_task_None (rows : list dict) (task_id : string) (idx : nat) :
  Forall (fun row : dict => ∃ v, row !! "task_id" = Some v ∧ v ≠ Some task_id) rows →
  find_task rows task_id idx = Ok None.
Proof.
  intros H. revert idx. induction H as [|row rows (v & Hv & Hne) _ IH]; intros idx;
    simpl; [done|].
  unfold dict_index. rewrite Hv. simpl. by rewrite bool_decide_false.
Qed.

(** C5: [update_task] is atomic. When the record with the given id is
    found and the merged candidate fails the validation, the call raises
    the error of the validation and the caller's table, and every object
    the caller could reach, is as before; and whatever makes the call fail,
    the caller's table is as before. *)
Theorem update_task_atomic (h : heap) (t : loc) (rows : list dict)
    (task_id : string) (updates : dict) (now_iso : string) :
  heap_rows h t = Ok rows →
  (∀ (idx : nat) (row : dict) (e : exn),
     changes_task_id updates task_id = false →
     find_task rows task_id 0 = Ok (Some (idx, row)) →
     _validate_task_record (merged_row row task_id updates now_iso)
       (<[idx := merged_row row task_id updates now_iso]> rows) = Err e →
     ∃ h', update_task t task_id updates now_iso h = (h', Err e)
           ∧ heap_rows h' t = Ok rows ∧ h ⊆ h')
  ∧ (∀ (h' : heap) (e : exn),
       update_task t task_id updates now_iso h = (h', Err e) →
       heap_rows h' t = Ok rows ∧ h ⊆ h').
Proof.
  intros Hrows. split.
  - intros idx row e Hc Hf Hv. apply (update_task_Err h t rows); [done|].
    unfold update_task_rows. rewrite Hc, Hf. unfold update_found. rstep.
    by rewrite Hv.
  - intros h' e Hrun.
    pose proof (update_task_unchanged h t rows task_id updates now_iso Hrows) as Hu.
    by rewrite Hrun in Hu.
Qed.

Lemma update_task_atomic_witness :
  ∃ h', update_task 1%positive "T1" {[ "status" := Some "To Do" ]} "now"
          (store_with row_T1)
        = (h', Err (ValueError
                      "completion_date can only be set when status is 'Completed'"))
        ∧ heap_rows h' 1%positive = Ok [row_T1] ∧ store_with row_T1 ⊆ h'.
Proof.
  apply (proj1 (update_task_atomic (store_with row_T1) 1%positive [row_T1] "T1"
                  {[ "status" := Some "To Do" ]} "now" ltac:(vm_refl))
           0 row_T1).
  - vm_refl.
  - vm_refl.
  - vm_refl.
Defined.

(** C7, as amended: for every table whose records all carry a [task_id],
    none equal to [task_id], and every [updates] that does not bind
    [task_id] to another value, [update_task] raises the not-found error,
    [ValueError("task_id '<task_id>' not found")], and the caller's table
    is unchanged. *)
Theorem update_task_not_found (h : heap) (t : loc) (rows : list dict)
    (task_id : string) (updates : dict) (now_iso : string) :
  heap_rows h t = Ok rows →
  Forall (fun row : dict => ∃ v, row !! "task_id" = Some v ∧ v ≠ Some task_id) rows →
  changes_task_id updates task_id = false →
  ∃ h', update_task t task_id updates now_iso h
        = (h', Err (ValueError ("task_id '" +:+ task_id +:+ "' not found")))
        ∧ heap_rows h' t = Ok rows ∧ h ⊆ h'.
Proof.
  intros Hrows Hno Hc. apply (update_task_Err h t rows); [done|].
  unfold update_task_rows. rewrite Hc. by rewrite (find_task_None rows task_id 0 Hno).
Qed.

Lemma update_task_not_found_witness :
  ∃ h', update_task 1%positive "T9" {[ "status" := Some "Blocked" ]} "now"
          (store_with row_T1)
        = (h', Err (ValueError "task_id 'T9' not found"))
        ∧ heap_rows h' 1%positive = Ok [row_T1] ∧ store_with row_T1 ⊆ h'.
Proof.
  apply (update_task_not_found (store_with row_T1) 1%positive [row_T1] "T9"
           {[ "status" := Some "Blocked" ]} "now").
  - vm_refl.
  - apply Forall_singleton. exists (Some "T1"). split; [vm_refl|discriminate].
  - vm_refl.
Defined.

(** C7 as stated fails: when [updates] binds [task_id] to another value the
    error is the one of the immutable field, also when no record has the
    id. *)
Lemma update_task_not_found_counterexample :
  Forall (fun row : dict => ∃ v, row !! "task_id" = Some v ∧ v ≠ Some "T9") [row_T1]
  ∧ (update_task 1%positive "T9" {[ "task_id" := Some "T8" ]} "now"
       (store_with row_T1)).2
    = Err (ValueError "task_id is immutable")
  ∧ (update_task 1%positive "T9" {[ "task_id" := Some "T8" ]} "now"
       (store_with row_T1)).2
    ≠ Err (ValueError ("task_id '" +:+ "T9" +:+ "' not found")).
Proof.
  split.
  { apply Forall_singleton. exists (Some "T1").
    split; [vm_refl|discriminate]. }
  assert (E : (update_task 1%positive "T9" {[ "task_id" := Some "T8" ]} "now"
                 (store_with row_T1)).2
              = Err (ValueError "task_id is immutable"))
    by (vm_refl).
  split; [exact E|]. rewrite E. vm_compute. discriminate.
Qed.

(** ** The stable sort *)

Section stable_sort.
Context {A K : Type} `{EqDecision K} (ltb : K → K → bool).
Hypothesis ltb_irrefl : ∀ k, ltb k k = false.

Lemma insert_by_perm (x : K * A) (l : list (K * A)) :
  insert_by ltb x l ≡ₚ x :: l.
Proof.
  induction l as [|y ys IH]; simpl; [done|].
  destruct (ltb y.1 x.1); [|done]. rewrite IH. apply Permutation_swap.
Qed.

Lemma sort_by_perm (l : list (K * A)) : sort_by ltb l ≡ₚ l.
Proof.
  induction l as [|x l IH]; simpl; [done|]. by rewrite insert_by_perm, IH.
Qed.

Lemma insert_by_filter_key (k : K) (x : K * A) (l : list (K * A)) :
  filter (fun p : K * A => p.1 = k) (insert_by ltb x l)
  = filter (fun p : K * A => p.1 = k) (x :: l).
Proof.
  induction l as [|y ys IH]; simpl; [done|].
  destruct (ltb y.1 x.1) eqn:Hlt; [|done].
  assert (Hne : y.1 ≠ x.1).
  { intros E. rewrite E, ltb_irrefl in Hlt. done. }
  rewrite (filter_cons _ y (insert_by ltb x ys)), IH.
  rewrite !(filter_cons _ x), (filter_cons _ y ys).
  destruct (decide (x.1 = k)) as [Hx|Hx], (decide (y.1 = k)) as [Hy|Hy];
    try done. congruence.
Qed.

Lemma sort_by_filter_key (k : K) (l : list (K * A)) :
  filter (fun p : K * A => p.1 = k) (sort_by ltb l)
  = filter (fun p : K * A => p.1 = k) l.
Proof.
  induction l as [|x l IH]; simpl; [done|].
  by rewrite insert_by_filter_key, !filter_cons, IH.
Qed.
End stable_sort.

Lemma decorate_inv {A K : Type} (key : A → result K) (l : list A)
    (keyed : list (K * A)) :
  decorate key l = Ok keyed →
  keyed.*2 = l ∧ Forall (fun p : K * A => key p.2 = Ok p.1) keyed.
Proof.
  revert keyed. induction l as [|x l IH]; intros keyed H; simpl in *.
  - by simplify_eq.
  - destruct (key x) as [k|] eqn:Hk; simpl in *; [|done].
    destruct (decorate key l) as [ks|]; simpl in *; [|done]. simplify_eq.
    destruct (IH ks eq_refl) as [E HF]. split.
    + rewrite fmap_cons. simpl. by rewrite E.
    + by apply Forall_cons.
Qed.

Lemma decorate_total {A K : Type} (key : A → result K) (l : list A) :
  Forall (fun x => ∃ k, key x = Ok k) l → ∃ keyed, decorate key l = Ok keyed.
Proof.
  induction 1 as [|x l (k & Hk) _ (ks & IH)]; simpl; [by eexists|].
  rewrite Hk, IH. simpl. by eexists.
Qed.

Lemma filter_has_key (k : nat * date) (keyed : list ((nat * date) * dict)) :
  Forall (fun p : (nat * date) * dict => sort_key p.2 = Ok p.1) keyed →
  filter (fun row : dict => has_key k row) (keyed.*2)
  = (filter (fun p : (nat * date) * dict => p.1 = k) keyed).*2.
Proof.
  induction 1 as [|p l Hp _ IH]; [done|].
  rewrite fmap_cons, !filter_cons, IH.
  destruct (decide (p.1 = k)) as [E|E].
  - rewrite decide_True; [done|]. apply bool_decide_pack. by rewrite Hp, E.
  - rewrite decide_False; [done|]. intros H. apply bool_decide_unpack in H.
    congruence.
Qed.

Lemma key_ltb_irrefl (k : nat * date) : key_ltb k k = false.
Proof.
  destruct k as [n [y m d]]. unfold key_ltb, date_ltb. simpl.
  rewrite Nat.ltb_irrefl, !Z.ltb_irrefl, !Z.eqb_refl, Nat.eqb_refl. done.
Qed.

Lemma key_ltb_spec (k1 k2 : nat * date) :
  key_ltb k1 k2 = true ↔
  (k1.1 < k2.1)%nat
  ∨ (k1.1 = k2.1
     ∧ ((year k1.2 < year k2.2)%Z
        ∨ (year k1.2 = year k2.2
           ∧ ((month k1.2 < month k2.2)%Z
              ∨ (month k1.2 = month k2.2 ∧ (day k1.2 < day k2.2)%Z))))).
Proof.
  unfold key_ltb, date_ltb.
  repeat (rewrite ?orb_true_iff, ?andb_true_iff).
  rewrite Nat.ltb_lt, Nat.eqb_eq, !Z.ltb_lt, !Z.eqb_eq. done.
Qed.

Lemma key_ltb_asym (k1 k2 : nat * date) :
  key_ltb k1 k2 = true → key_ltb k2 k1 = false.
Proof.
  intros H. apply not_true_iff_false. rewrite key_ltb_spec in *. lia.
Qed.

Lemma key_le_trans (k1 k2 k3 : nat * date) :
  key_le k1 k2 → key_le k2 k3 → key_le k1 k3.
Proof.
  unfold key_le. intros H1 H2.
  apply not_true_iff_false in H1, H2. apply not_true_iff_false.
  rewrite key_ltb_spec in *. lia.
Qed.

Lemma insert_by_sorted {A : Type} (x : (nat * date) * A)
    (l : list ((nat * date) * A)) :
  StronglySorted (fun p q : (nat * date) * A => key_le p.1 q.1) l →
  StronglySorted (fun p q : (nat * date) * A => key_le p.1 q.1)
    (insert_by key_ltb x l).
Proof.
  induction 1 as [|y ys Hs IH Hall]; simpl.
  - apply SSorted_cons; [apply SSorted_nil|apply Forall_nil_2].
  - destruct (key_ltb y.1 x.1) eqn:Hlt.
    + apply SSorted_cons; [exact IH|].
      rewrite (insert_by_perm key_ltb x ys). apply Forall_cons. split; [|done].
      by apply key_ltb_asym.
    + apply SSorted_cons; [by apply SSorted_cons|].
      apply Forall_cons. split; [exact Hlt|].
      eapply Forall_impl; [exact Hall|]. intros z Hz. simpl in *.
      by apply (key_le_trans _ y.1).
Qed.

Lemma sort_by_sorted {A : Type} (l : list ((nat * date) * A)) :
  StronglySorted (fun p q : (nat * date) * A => key_le p.1 q.1)
    (sort_by key_ltb l).
Proof.
  induction l as [|x l IH]; simpl; [apply SSorted_nil|by apply insert_by_sorted].
Qed.

Lemma sort_key_total (row : dict) :
  (∃ d, _validate_date (dict_get row "due_date") "due_date" = Ok d) →
  ∃ k, sort_key row = Ok k.
Proof.
  intros [d Hd]. unfold sort_key, _due_key. rewrite Hd. simpl. by eexists.
Qed.

(** The rows come back in the order of their keys, smallest first, and
    they are the rows of the table. *)
Lemma sort_tasks_sorted (table out : list dict) :
  sort_tasks_by_priority_and_due_date table = Ok out →
  out ≡ₚ table
  ∧ ∃ keyed : list ((nat * date) * dict),
      keyed.*2 = out
      ∧ Forall (fun p : (nat * date) * dict => sort_key p.2 = Ok p.1) keyed
      ∧ StronglySorted (fun p q : (nat * date) * dict => key_le p.1 q.1) keyed.
Proof.
  unfold sort_tasks_by_priority_and_due_date, sorted. intros H.
  destruct (decorate sort_key table) as [keyed|] eqn:Hd; simpl in H; [|done].
  simplify_eq. destruct (decorate_inv _ _ _ Hd) as [E HF]. split.
  - rewrite <- E. apply fmap_Permutation, sort_by_perm.
  - exists (sort_by key_ltb keyed). split; [done|]. split.
    + by rewrite (sort_by_perm key_ltb keyed).
    + apply sort_by_sorted.
Qed.

(** ** Claims about the sort *)

(** C1, as amended: on the table [A(High, 2024-01-10), B(High,
    2024-01-05), C(Low, 2024-01-01)] the sort returns [C, B, A]: the rank
    of a priority is its position in Low, Medium, High, Urgent and the
    smallest rank comes first, the earlier due date first among equal
    ranks. *)
Theorem sort_example :
  sort_tasks_by_priority_and_due_date [task_A; task_B; task_C]
  = Ok [task_C; task_B; task_A].
Proof. vm_refl. Qed.

(** C1 as stated fails: the result is not [B, A, C]. *)
Lemma sort_example_counterexample :
  sort_tasks_by_priority_and_due_date [task_A; task_B; task_C]
  ≠ Ok [task_B; task_A; task_C].
Proof.
  rewrite sort_example. intros H.
  apply (f_equal (fun r : result (list dict) =>
                    match r with
                    | Ok (d :: _) => d !! "task_id"
                    | _ => None
                    end)) in H.
  vm_compute in H. discriminate H.
Qed.

(** C9: the sort is stable. For every key, the rows with that key come
    out in the order they came in: the rows of the result that have the
    key are, in order, the rows of the table that have it. And the sort
    does return a result on every table whose due dates are absent, empty
    or dates. *)
Theorem sort_tasks_stable :
  (∀ (table out : list dict) (k : nat * date),
     sort_tasks_by_priority_and_due_date table = Ok out →
     filter (fun row : dict => has_key k row) out
     = filter (fun row : dict => has_key k row) table)
  ∧ (∀ table : list dict,
       due_dates_ok table →
       ∃ out, sort_tasks_by_priority_and_due_date table = Ok out).
Proof.
  split.
  - intros table out k H.
    unfold sort_tasks_by_priority_and_due_date, sorted in H.
    destruct (decorate sort_key table) as [keyed|] eqn:Hd; simpl in H; [|done].
    simplify_eq. destruct (decorate_inv _ _ _ Hd) as [E HF].
    rewrite filter_has_key by by rewrite (sort_by_perm key_ltb keyed).
    rewrite (sort_by_filter_key key_ltb key_ltb_irrefl).
    rewrite <- filter_has_key by done. by rewrite E.
  - intros table Hok. unfold sort_tasks_by_priority_and_due_date, sorted.
    destruct (decorate_total sort_key table) as [keyed ->]; [|by eexists].
    eapply Forall_impl; [exact Hok|]. intros row. apply sort_key_total.
Qed.

Lemma sort_tasks_stable_witness :
  filter (fun row : dict => has_key (2, mk_date 2024 1 5) row)
    [task_C; task_B; task_B]
  = filter (fun row : dict => has_key (2, mk_date 2024 1 5) row)
      [task_B; task_C; task_B]
  ∧ ∃ out, sort_tasks_by_priority_and_due_date [task_A; task_B; task_C] = Ok out.
Proof.
  split.
  - apply (proj1 sort_tasks_stable [task_B; task_C; task_B]).
    vm_refl.
  - apply (proj2 sort_tasks_stable).
    repeat (apply Forall_cons; split; [eexists; vm_compute; reflexivity|]).
    apply Forall_nil_2.
Defined.

(** ** Claims about the overdue tasks *)

Lemma validate_date_due_of (row : dict) (d : option date) :
  _validate_date (dict_get row "due_date") "due_date" = Ok d → d = due_of row.
Proof.
  unfold _validate_date, due_of.
  destruct (dict_get row "due_date") as [s|]; simpl; [|congruence].
  case_bool_decide as Hs.
  - subst s. intros [= <-]. reflexivity.
  - destruct (strptime_ymd s); [congruence|done].
Qed.

Lemma overdue_loop_spec (rows : list dict) (today : date) (acc : list dict) :
  due_dates_ok rows →
  overdue_loop rows today acc = Ok (acc ++ filter (fun row : dict => is_overdue today row) rows).
Proof.
  intros H. revert acc. induction H as [|row rows [d Hd] _ IH]; intros acc; simpl.
  - by rewrite app_nil_r.
  - rewrite Hd. simpl. pose proof (validate_date_due_of row d Hd) as E.
    assert (Hov : is_overdue today row
                  = match d with
                    | Some d0 =>
                        date_ltb d0 today
                        && negb (bool_decide (dict_get row "status" = Some "Completed"))
                    | None => false
                    end) by (unfold is_overdue; by rewrite <- E).
    rewrite filter_cons. destruct d as [d|].
    + destruct (date_ltb d today && _) eqn:Hb; rewrite IH.
      * rewrite decide_True by (by rewrite Hov). by rewrite <- app_assoc.
      * rewrite decide_False by (intros HH; by rewrite Hov in HH). done.
    + rewrite IH, decide_False by (intros HH; by rewrite Hov in HH). done.
Qed.

Lemma date_ltb_irrefl (d : date) : date_ltb d d = false.
Proof.
  unfold date_ltb. by rewrite !Z.ltb_irrefl, !Z.eqb_refl.
Qed.

Lemma yesterday_lt (d : date) : date_ltb (yesterday d) d = true.
Proof.
  unfold yesterday, date_ltb. destruct d as [y m dd]. simpl.
  destruct (1 <? dd)%Z eqn:H1; simpl.
  - rewrite !Z.eqb_refl. apply Z.ltb_lt in H1.
    replace (dd - 1 <? dd)%Z with true by (symmetry; apply Z.ltb_lt; lia).
    by rewrite !orb_true_r.
  - destruct (1 <? m)%Z eqn:H2; simpl.
    + rewrite Z.eqb_refl. apply Z.ltb_lt in H2.
      replace (m - 1 <? m)%Z with true by (symmetry; apply Z.ltb_lt; lia).
      by rewrite orb_true_r.
    + replace (y - 1 <? y)%Z with true by (symmetry; apply Z.ltb_lt; lia). done.
Qed.

(** C6, as amended: for every table whose due dates are all absent, empty
    or dates, and every date [today], [overdue_tasks] returns exactly the
    records, in input order, whose [due_date] is present and parses to a
    date strictly before [today] and whose status is not Completed. A
    record due today is not returned; a record of the table due yesterday
    and not Completed is; a Completed one is not; a record with no due date
    is not. *)
Theorem overdue_tasks_spec (table : list dict) (today date_today : date) :
  due_dates_ok table →
  ∃ out, overdue_tasks table (Some today) date_today = Ok out
    ∧ out = filter (fun row : dict => is_overdue today row) table
    ∧ (∀ row : dict, due_of row = Some today → row ∉ out)
    ∧ (∀ row : dict, row ∈ table → due_of row = Some (yesterday today) →
         dict_get row "status" ≠ Some "Completed" → row ∈ out)
    ∧ (∀ row : dict, dict_get row "status" = Some "Completed" → row ∉ out)
    ∧ (∀ row : dict, dict_get row "due_date" = None → row ∉ out).
Proof.
  intros Hok. eexists. split.
  { unfold overdue_tasks. simpl. by rewrite overdue_loop_spec. }
  simpl. split; [done|]. repeat split.
  - intros row Hd Hin. apply list_elem_of_filter in Hin as [Hov _].
    unfold is_overdue in Hov. rewrite Hd, date_ltb_irrefl in Hov. done.
  - intros row Hin Hd Hst. apply list_elem_of_filter. split; [|done].
    unfold is_overdue. rewrite Hd, yesterday_lt. simpl.
    by rewrite bool_decide_false.
  - intros row Hst Hin. apply list_elem_of_filter in Hin as [Hov _].
    unfold is_overdue in Hov. destruct (due_of row); [|done].
    rewrite Hst, bool_decide_true, andb_false_r in Hov; done.
  - intros row Hd Hin. apply list_elem_of_filter in Hin as [Hov _].
    unfold is_overdue, due_of in Hov. by rewrite Hd in Hov.
Qed.

Lemma overdue_tasks_spec_witness :
  ∃ out, overdue_tasks [task_A; task_E; row_T1] (Some (mk_date 2024 1 10))
           (mk_date 2030 1 1) = Ok out
    ∧ out = filter (fun row : dict => is_overdue (mk_date 2024 1 10) row)
              [task_A; task_E; row_T1]
    ∧ (∀ row : dict, due_of row = Some (mk_date 2024 1 10) → row ∉ out)
    ∧ (∀ row : dict, row ∈ [task_A; task_E; row_T1] →
         due_of row = Some (yesterday (mk_date 2024 1 10)) →
         dict_get row "status" ≠ Some "Completed" → row ∈ out)
    ∧ (∀ row : dict, dict_get row "status" = Some "Completed" → row ∉ out)
    ∧ (∀ row : dict, dict_get row "due_date" = None → row ∉ out).
Proof.
  apply (overdue_tasks_spec [task_A; task_E; row_T1]).
  repeat (apply Forall_cons; split; [eexists; vm_compute; reflexivity|]).
  apply Forall_nil_2.
Defined.

Example overdue_tasks_example :
  overdue_tasks [task_A; task_E; row_T1] (Some (mk_date 2024 1 10))
    (mk_date 2030 1 1) = Ok [task_E].
Proof. vm_refl. Qed.

(** C6 as stated fails: on a table with a due date that is not a date the
    call raises [ValueError] and returns nothing. *)
Lemma overdue_tasks_counterexample :
  overdue_tasks [task_bad_due] (Some (mk_date 2024 1 10)) (mk_date 2024 1 10)
  = Err (ValueError "due_date must be in YYYY-MM-DD format")
  ∧ overdue_tasks [task_bad_due] (Some (mk_date 2024 1 10)) (mk_date 2024 1 10)
    ≠ Ok (filter (fun row : dict => is_overdue (mk_date 2024 1 10) row)
            [task_bad_due]).
Proof.
  assert (E : overdue_tasks [task_bad_due] (Some (mk_date 2024 1 10))
                (mk_date 2024 1 10)
              = Err (ValueError "due_date must be in YYYY-MM-DD format"))
    by (vm_refl).
  split; [exact E|]. rewrite E. discriminate.
Qed.

(** ** Claims about the CSV round trip *)

Lemma lookup_columns_map (f : string → value) (l : list string) (col : string) :
  (list_to_map (map (fun c => (c, f c)) l) : dict) !! col
  = if decide (col ∈ l) then Some (f col) else None.
Proof.
  induction l as [|c l IH]; simpl.
  - rewrite lookup_empty.
    destruct (decide (col ∈ [])) as [H|H]; [by apply elem_of_nil in H|done].
  - rewrite lookup_insert. destruct (decide (c = col)) as [->|Hc].
    + by rewrite decide_True by apply list_elem_of_here.
    + rewrite IH.
      destruct (decide (col ∈ l)) as [H1|H1];
        destruct (decide (col ∈ c :: l)) as [H2|H2]; try done.
      * exfalso. apply H2. by apply list_elem_of_further.
      * exfalso. apply elem_of_cons in H2 as [E|E]; [by subst|done].
Qed.

Lemma or_none_export (row : dict) (col : string) :
  or_none (Some (or_str (dict_get_default row col (Some "")) ""))
  = or_none (dict_get row col).
Proof.
  unfold dict_get_default, dict_get, or_none, or_str, truthy.
  destruct (row !! col) as [[s|]|]; simpl; repeat case_bool_decide; simpl;
    try done; repeat case_bool_decide; done.
Qed.

Lemma cleaned_export_row (row : dict) :
  cleaned_row (export_row row)
  = list_to_map (map (fun col => (col, or_none (dict_get row col))) COLUMNS).
Proof.
  unfold cleaned_row, export_row, COLUMNS.
  cbn [imap map lookup list_lookup Nat.add compose].
  by rewrite !or_none_export.
Qed.


Lemma validate_Ok_iff (task : dict) (table : list dict) :
  _validate_task_record task table = Ok tt ↔ fields_ok task ∧ id_unique task table.
Proof.
  unfold _validate_task_record, fields_ok, id_unique, value_strip, dict_index.
  split.
  - intros H.
    destruct (dict_get_default task "task_name" (Some "")) as [s|]; simpl in H; [|done].
    case_bool_decide as Hs; [done|].
    destruct (value_in (dict_get task "priority") PRIORITIES); simpl in H; [|done].
    destruct (value_in (dict_get task "status") STATUSES); simpl in H; [|done].
    destruct (_validate_date (dict_get task "start_date") _) as [start|]; simpl in H; [|done].
    destruct (_validate_date (dict_get task "due_date") _) as [due|]; simpl in H; [|done].
    destruct (_validate_date (dict_get task "completion_date") _) as [completion|];
      simpl in H; [|done].
    destruct (both_and_gt start due) eqn:Hsd; [done|].
    destruct (negb (is_none_or_empty _) && _) eqn:Hcs; [done|].
    destruct (both_and_gt start completion) eqn:Hsc; [done|].
    destruct (task_ids table) as [ids|]; simpl in H; [|done].
    destruct (task !! "task_id") as [tid|]; simpl in H; [|done].
    case_bool_decide as Hc; [done|].
    split; [|exists ids, tid; repeat split; lia].
    split; [by exists s|]. do 2 (split; [done|]).
    exists start, due, completion. by repeat split.
  - intros [[(s & -> & Hs) (-> & -> & (start & due & completion & -> & -> & -> & H1 & H2 & H3))]
            (ids & tid & -> & -> & Hc)].
    simpl. rewrite bool_decide_false by done. simpl.
    rewrite H1, H2, H3. simpl.
    rewrite bool_decide_false by lia. done.
Qed.






Lemma task_ids_get (rows : list dict) (ids : list value) :
  task_ids rows = Ok ids → ids = map (fun row : dict => dict_get row "task_id") rows.
Proof.
  revert ids. induction rows as [|r rows IH]; intros ids H; simpl in *.
  - by simplify_eq.
  - unfold dict_index, dict_get in *. destruct (r !! "task_id") as [v|]; simpl in *; [|done].
    destruct (task_ids rows) as [xs|]; simpl in *; [|done]. simplify_eq.
    by rewrite (IH xs).
Qed.

Lemma task_ids_lookup (rows : list dict) (f : dict → value) :
  Forall (fun row : dict => row !! "task_id" = Some (f row)) rows →
  task_ids rows = Ok (map f rows).
Proof.
  induction 1 as [|r rows Hr _ IH]; simpl; [done|].
  unfold dict_index. by rewrite Hr, IH.
Qed.




Lemma task_E_invariants : table_invariants [task_E].
Proof.
  repeat split.
  - apply Forall_singleton. intros col Hin. unfold COLUMNS in Hin.
    repeat (apply elem_of_cons in Hin as [->|Hin]; [vm_compute; eauto|]).
    by apply elem_of_nil in Hin.
  - apply Forall_singleton. vm_compute. eauto.
  - exists [Some "E"]. split; [vm_refl|apply NoDup_singleton].
  - apply Forall_singleton. vm_refl.
Qed.



(** ** Claims about the progress

    Numbers are rationals in this part. *)

Local Open Scope Q_scope.

Lemma round_half_even_spec (q : Q) :
  - (1 # 2) <= inject_Z (round_half_even q) - q <= 1 # 2.
Proof.
  unfold round_half_even.
  pose proof (Qfloor_le q) as Hlo. pose proof (Qlt_floor q) as Hhi.
  rewrite inject_Z_plus in Hhi. change (inject_Z 1) with 1 in Hhi.
  destruct (Qcompare_spec (q - inject_Z (Qfloor q)) (1 # 2)) as [H|H|H].
  - destruct (Z.even (Qfloor q)).
    + lra.
    + rewrite inject_Z_plus. change (inject_Z 1) with 1. lra.
  - lra.
  - rewrite inject_Z_plus. change (inject_Z 1) with 1. lra.
Qed.

Lemma pow2_pos (e : Z) : 0 < 2 ^ e.
Proof. apply Qpower_0_lt. reflexivity. Qed.

Lemma ilog2_lower (q : Q) : 0 < q -> 2 ^ ilog2 q <= q.
Proof.
  intros Hq. unfold ilog2.
  set (a := Qnum q). set (b := Z.pos (Qden q)).
  destruct (Qle_bool (2 ^ (Z.log2 a - Z.log2 b)) q) eqn:Hb.
  - by apply Qle_bool_iff.
  - assert (Ha : (0 < a)%Z).
    { unfold a. destruct q as [n d]. unfold Qlt in Hq. simpl in *. lia. }
    assert (Hb' : (0 < b)%Z) by (unfold b; lia).
    destruct (Z.log2_spec a Ha) as [Hal _].
    destruct (Z.log2_spec b Hb') as [_ Hbu].
    pose proof (Z.log2_nonneg a) as Hla. pose proof (Z.log2_nonneg b) as Hlb.
    replace (Z.log2 a - Z.log2 b - 1)%Z with (Z.log2 a - Z.succ (Z.log2 b))%Z by lia.
    rewrite Qpower_minus by discriminate.
    rewrite <- !(Zpower_Qpower 2) by lia.
    assert (Hq' : q == inject_Z a / inject_Z b).
    { unfold a, b. destruct q as [n d]. simpl. apply Qmake_Qdiv. }
    rewrite Hq'.
    assert (H1 : inject_Z (2 ^ Z.log2 a) <= inject_Z a) by (rewrite <- Zle_Qle; lia).
    assert (H2 : inject_Z b < inject_Z (2 ^ Z.succ (Z.log2 b))) by (rewrite <- Zlt_Qlt; lia).
    assert (H3 : 0 < inject_Z b) by (change 0 with (inject_Z 0); rewrite <- Zlt_Qlt; lia).
    assert (H4 : 0 < inject_Z (2 ^ Z.log2 a)).
    { change 0 with (inject_Z 0). rewrite <- Zlt_Qlt. apply Z.pow_pos_nonneg; lia. }
    set (A := inject_Z a) in *. set (B := inject_Z b) in *.
    set (PA := inject_Z (2 ^ Z.log2 a)) in *.
    set (PB := inject_Z (2 ^ Z.succ (Z.log2 b))) in *.
    apply Qle_shift_div_r; [lra|].
    assert (E : A / B * PB == A * PB / B) by (field; lra). rewrite E.
    apply Qle_shift_div_l; [done|]. nra.
Qed.

Lemma nearest53_error (q : Q) :
  0 < q -> - (q * (1 # 9007199254740992)) <= nearest53 q - q
           <= q * (1 # 9007199254740992).
Proof.
  intros Hq. unfold nearest53.
  pose proof (ilog2_lower q Hq) as Hlo.
  set (e := ilog2 q) in *.
  assert (HP : 2 ^ (e - 52) * (2 ^ 53) == 2 * 2 ^ e).
  { rewrite <- Qpower_plus by discriminate.
    replace (e - 52 + 53)%Z with (1 + e)%Z by lia.
    rewrite Qpower_plus by discriminate. reflexivity. }
  pose proof (pow2_pos (e - 52)) as HPpos.
  set (P := 2 ^ (e - 52)) in *.
  pose proof (round_half_even_spec (q / P)) as Hr.
  set (m := inject_Z (round_half_even (q / P))) in *.
  assert (Hy : q == (q / P) * P) by (field; lra).
  set (y := q / P) in *.
  change (2 ^ 53) with 9007199254740992 in HP.
  set (E := 2 ^ e) in *.
  split; nra.
Qed.

Lemma binary64_error (q : Q) :
  0 <= q -> - (q * (1 # 9007199254740992)) <= binary64 q - q
            <= q * (1 # 9007199254740992).
Proof.
  intros Hq. unfold binary64. destruct (Qcompare_spec q 0) as [H|H|H].
  - lra.
  - lra.
  - by apply nearest53_error.
Qed.

Lemma pct_bound (c n : Z) :
  (0 <= c <= n)%Z -> (1 <= n <= 2 ^ 32)%Z ->
  (2 * Z.abs (round_half_even (binary64 (binary64 (inject_Z c / inject_Z n) * 100)
                               * 10 ^ 2) * n - 10000 * c) <= n)%Z.
Proof.
  intros Hc Hn.
  assert (HN : 1 <= inject_Z n <= 4294967296).
  { change 1 with (inject_Z 1). change 4294967296 with (inject_Z (2 ^ 32)).
    rewrite <- !Zle_Qle. lia. }
  assert (HC : 0 <= inject_Z c <= inject_Z n).
  { change 0 with (inject_Z 0). rewrite <- !Zle_Qle. lia. }
  set (N := inject_Z n) in *. set (C := inject_Z c) in *.
  assert (Hr : C == (C / N) * N) by (field; lra).
  assert (Hr0 : 0 <= C / N).
  { apply Qle_shift_div_l; lra. }
  assert (Hr1 : C / N <= 1).
  { apply Qle_shift_div_r; lra. }
  set (r := C / N) in *.
  pose proof (binary64_error r Hr0) as H1.
  set (q1 := binary64 r) in *.
  assert (Hq1 : 0 <= q1 * 100) by lra.
  pose proof (binary64_error (q1 * 100) Hq1) as H2.
  set (x := binary64 (q1 * 100)) in *.
  pose proof (round_half_even_spec (x * 10 ^ 2)) as H3.
  set (k := round_half_even (x * 10 ^ 2)) in *.
  change (10 ^ 2) with 100 in H3.
  set (K := inject_Z k) in *.
  assert (Hup : 2 * (K * N - 10000 * C) < N + 1) by nra.
  assert (Hdn : - (N + 1) < 2 * (K * N - 10000 * C)) by nra.
  assert (Hsub : inject_Z (k * n - 10000 * c) == K * N - 10000 * C).
  { unfold Z.sub. rewrite inject_Z_plus, inject_Z_opp, !inject_Z_mult. reflexivity. }
  assert (Hup' : (2 * (k * n - 10000 * c) < n + 1)%Z).
  { rewrite Zlt_Qlt, inject_Z_plus, inject_Z_mult, Hsub. exact Hup. }
  assert (Hdn' : (- (n + 1) < 2 * (k * n - 10000 * c))%Z).
  { rewrite Zlt_Qlt, inject_Z_opp, inject_Z_plus, inject_Z_mult, Hsub. exact Hdn. }
  lia.
Qed.

Lemma ilog2_upper (q : Q) : 0 < q -> q < 2 ^ (ilog2 q + 1).
Proof.
  intros Hq. unfold ilog2.
  set (a := Qnum q). set (b := Z.pos (Qden q)).
  destruct (Qle_bool (2 ^ (Z.log2 a - Z.log2 b)) q) eqn:Hb.
  - assert (Ha : (0 < a)%Z).
    { unfold a. destruct q as [n d]. unfold Qlt in Hq. simpl in *. lia. }
    assert (Hb' : (0 < b)%Z) by (unfold b; lia).
    destruct (Z.log2_spec a Ha) as [_ Hau].
    destruct (Z.log2_spec b Hb') as [Hbl _].
    pose proof (Z.log2_nonneg a) as Hla. pose proof (Z.log2_nonneg b) as Hlb.
    replace (Z.log2 a - Z.log2 b + 1)%Z with (Z.succ (Z.log2 a) - Z.log2 b)%Z by lia.
    rewrite Qpower_minus by discriminate.
    rewrite <- !(Zpower_Qpower 2) by lia.
    assert (Hq' : q == inject_Z a / inject_Z b).
    { unfold a, b. destruct q as [n d]. simpl. apply Qmake_Qdiv. }
    rewrite Hq'.
    assert (H1 : inject_Z a < inject_Z (2 ^ Z.succ (Z.log2 a))) by (rewrite <- Zlt_Qlt; lia).
    assert (H2 : inject_Z (2 ^ Z.log2 b) <= inject_Z b) by (rewrite <- Zle_Qle; lia).
    assert (H3 : 0 < inject_Z (2 ^ Z.log2 b)).
    { change 0 with (inject_Z 0). rewrite <- Zlt_Qlt. apply Z.pow_pos_nonneg; lia. }
    assert (H4 : 0 < inject_Z a) by (change 0 with (inject_Z 0); rewrite <- Zlt_Qlt; lia).
    set (A := inject_Z a) in *. set (B := inject_Z b) in *.
    set (PA := inject_Z (2 ^ Z.succ (Z.log2 a))) in *.
    set (PB := inject_Z (2 ^ Z.log2 b)) in *.
    apply Qlt_shift_div_r; [lra|].
    assert (E : PA / PB * B == PA * B / PB) by (field; lra). rewrite E.
    apply Qlt_shift_div_l; [done|]. nra.
  - replace (Z.log2 a - Z.log2 b - 1 + 1)%Z with (Z.log2 a - Z.log2 b)%Z by lia.
    apply Qnot_le_lt. intros H. apply Qle_bool_iff in H. congruence.
Qed.

(** The model of the doubles agrees with the primitive floats on the
    operations of the examples. *)
Example binary64_agrees_with_primitive_floats :
  float_value (PrimFloat.div 1%float 3%float)
  == int_truediv 1 3
  ∧ float_value (PrimFloat.mul
                   (PrimFloat.div 1%float 3%float)
                   100%float)
    == float_mul (int_truediv 1 3) 100
  ∧ float_value (PrimFloat.mul
                   (PrimFloat.div 23%float 160%float)
                   100%float)
    == float_mul (int_truediv 23 160) 100
  ∧ float_value (PrimFloat.div 3333%float 100%float)
    == binary64 (3333 # 100)
  ∧ float_value (PrimFloat.div 1437%float 100%float)
    == binary64 (1437 # 100).
Proof. repeat split; vm_compute; reflexivity. Qed.

Lemma completed_count_le (table : list dict) :
  (completed_count table <= length table)%nat.
Proof. unfold completed_count. apply length_filter. Qed.

(** C8, as amended: [progress_percentage] returns 0.0 for the empty table.
    For a non-empty table of [n] records, [c] of them Completed (and [n]
    at most 2^32), it returns the double nearest to [k/100] for an integer
    [k] that is a nearest integer to [10000 c / n]: the exact percentage
    rounded to 2 decimal places, where a percentage exactly halfway
    between two hundredths may go either way. A table of 3 records with
    exactly 1 Completed yields 33.33. *)
Theorem progress_percentage_spec :
  progress_percentage [] = 0
  ∧ (∀ table : list dict,
       table ≠ [] → (Z.of_nat (length table) <= 2 ^ 32)%Z →
       ∃ k : Z,
         progress_percentage table = binary64 (inject_Z k / 10 ^ 2)
         ∧ (2 * Z.abs (k * Z.of_nat (length table)
                       - 10000 * Z.of_nat (completed_count table))
            <= Z.of_nat (length table))%Z)
  ∧ (∀ table : list dict,
       length table = 3%nat → completed_count table = 1%nat →
       progress_percentage table == binary64 (3333 # 100)).
Proof.
  split; [reflexivity|]. split.
  - intros table Hne Hlen. unfold progress_percentage.
    rewrite bool_decide_false by done.
    unfold py_round, float_mul, int_truediv. eexists. split; [reflexivity|].
    apply pct_bound; [|split; [|done]].
    + pose proof (completed_count_le table). lia.
    + destruct table; [done|]. simpl. lia.
  - intros table Hlen Hc. unfold progress_percentage.
    rewrite bool_decide_false by (intros ->; discriminate Hlen).
    rewrite Hlen, Hc. vm_compute. reflexivity.
Qed.

Lemma progress_percentage_spec_witness :
  (∃ k : Z,
     progress_percentage (table_of 23 160) = binary64 (inject_Z k / 10 ^ 2)
     ∧ (2 * Z.abs (k * Z.of_nat (length (table_of 23 160))
                   - 10000 * Z.of_nat (completed_count (table_of 23 160)))
        <= Z.of_nat (length (table_of 23 160)))%Z)
  ∧ progress_percentage (table_of 1 3) == binary64 (3333 # 100).
Proof.
  split.
  - apply (proj1 (proj2 progress_percentage_spec) (table_of 23 160)).
    + intros H. apply (f_equal length) in H. vm_compute in H. discriminate H.
    + vm_compute. discriminate.
  - apply (proj2 (proj2 progress_percentage_spec) (table_of 1 3)).
    + vm_refl.
    + vm_refl.
Defined.

(** C8 as stated fails: with 23 of 160 records Completed the percentage is
    14.375 exactly, which rounds to 14.38 (half up as well as half to
    even), and the result is 14.37, the product (23/160)*100 being a double
    just below 14.375; with 3 of 32 the percentage 9.375 is rounded up to
    9.38. No rule for the ties of the exact percentage gives both. *)
Lemma progress_percentage_counterexample :
  length (table_of 23 160) = 160%nat
  ∧ completed_count (table_of 23 160) = 23%nat
  ∧ 100 * (23 # 160) == 14375 # 1000
  ∧ round_half_even (100 * (23 # 160) * 100) = 1438%Z
  ∧ progress_percentage (table_of 23 160) == binary64 (1437 # 100)
  ∧ ¬ progress_percentage (table_of 23 160) == binary64 (1438 # 100)
  ∧ length (table_of 3 32) = 32%nat
  ∧ completed_count (table_of 3 32) = 3%nat
  ∧ 100 * (3 # 32) == 9375 # 1000
  ∧ progress_percentage (table_of 3 32) == binary64 (938 # 100)
  ∧ ¬ progress_percentage (table_of 3 32) == binary64 (937 # 100).
Proof.
  repeat split; try vm_refl; try (vm_compute; reflexivity);
    vm_compute; discriminate.
Qed.

Local Close Scope Q_scope.

(** * Further properties of the engine *)

(** ** Normalisation of a record *)

(** X1: [_ensure_columns] yields a dict whose keys are exactly the columns,
    holds what the argument held under each, and changes nothing when
    applied again. *)
Theorem ensure_columns_normal (task : dict) :
  dom (_ensure_columns task) = list_to_set COLUMNS
  ∧ (∀ col, col ∈ COLUMNS →
            _ensure_columns task !! col = Some (dict_get task col))
  ∧ (∀ col, col ∉ COLUMNS → _ensure_columns task !! col = None)
  ∧ _ensure_columns (_ensure_columns task) = _ensure_columns task.
Proof.
  assert (Hin : ∀ col, col ∈ COLUMNS →
                       _ensure_columns task !! col = Some (dict_get task col)).
  { intros col H. rewrite lookup_ensure_columns. by rewrite decide_True. }
  assert (Hout : ∀ col, col ∉ COLUMNS → _ensure_columns task !! col = None).
  { intros col H. rewrite lookup_ensure_columns. by rewrite decide_False. }
  split; [|split; [done|split; [done|]]].
  - apply set_eq. intros col. rewrite elem_of_dom, elem_of_list_to_set.
    rewrite lookup_ensure_columns. destruct (decide (col ∈ COLUMNS)) as [H|H].
    + split; [done|]. intros _. by eexists.
    + split; [|done]. intros [x Hx]. done.
  - apply map_eq. intros col. rewrite !lookup_ensure_columns.
    destruct (decide (col ∈ COLUMNS)) as [H|H]; [|done].
    unfold dict_get at 1. by rewrite (Hin col H).
Qed.

(** ** Invariants kept by the mutations *)

Lemma task_ids_elem (rows : list dict) (ids : list value) (row : dict) (v : value) :
  task_ids rows = Ok ids → row ∈ rows → row !! "task_id" = Some v → v ∈ ids.
Proof.
  revert ids. induction rows as [|r rows IH]; intros ids H Hin Hv; simpl in *.
  - by apply elem_of_nil in Hin.
  - unfold dict_index in H. destruct (r !! "task_id") as [x|] eqn:Hx; simpl in H; [|done].
    destruct (task_ids rows) as [xs|]; simpl in H; [|done]. simplify_eq.
    apply elem_of_cons in Hin as [->|Hin].
    + rewrite Hx in Hv. simplify_eq. apply list_elem_of_here.
    + apply list_elem_of_further. by apply (IH xs).
Qed.

Lemma count_value_app_other (v x : value) (ids : list value) :
  v ≠ x → count_value v (ids ++ [x]) = count_value v ids.
Proof.
  intros Hne. unfold count_value. rewrite filter_app, length_app.
  rewrite (filter_cons _ x []), decide_False by done. simpl. lia.
Qed.

Lemma count_value_NoDup (v : value) (ids : list value) :
  NoDup ids → (count_value v ids ≤ 1)%nat.
Proof.
  unfold count_value. induction 1 as [|x ids Hx _ IH]; simpl; [lia|].
  rewrite filter_cons. destruct (decide (x = v)) as [->|Hne]; [|done].
  simpl. replace (filter (fun y => y = v) ids) with (@nil value); [simpl; lia|].
  symmetry. clear IH. induction ids as [|y ids IH]; [done|].
  apply not_elem_of_cons in Hx as [Hne Hx].
  rewrite filter_cons, decide_False by done. by apply IH.
Qed.

(** On a table with pairwise distinct ids a record of the table passes the
    validation as soon as its fields do. *)
Lemma validate_in_distinct (rows : list dict) (row : dict) :
  distinct_ids rows → row ∈ rows → fields_ok row →
  _validate_task_record row rows = Ok tt.
Proof.
  intros (ids & Hids & Hnd) Hin Hf. apply validate_Ok_iff. split; [done|].
  assert (∃ v, row !! "task_id" = Some v) as [v Hv].
  { clear -Hids Hin. revert ids Hids.
    induction rows as [|r rows IH]; intros ids Hids; [by apply elem_of_nil in Hin|].
    simpl in Hids. unfold dict_index in Hids.
    destruct (r !! "task_id") as [x|] eqn:Hx; simpl in Hids; [|done].
    destruct (task_ids rows) as [xs|]; simpl in Hids; [|done].
    apply elem_of_cons in Hin as [->|Hin]; [by exists x|]. by apply (IH Hin xs). }
  exists ids, v. repeat split; try done. by apply count_value_NoDup.
Qed.

Lemma table_invariants_intro (rows : list dict) :
  Forall (fun row : dict => ∀ col, col ∈ COLUMNS → is_Some (row !! col)) rows →
  Forall (fun row : dict => is_Some (dict_get row "task_id")) rows →
  distinct_ids rows → Forall fields_ok rows →
  table_invariants rows.
Proof.
  intros H1 H2 H3 H4. repeat split; try done.
  apply Forall_forall. intros row Hin. apply validate_in_distinct; try done.
  rewrite Forall_forall in H4. by apply H4.
Qed.

Lemma table_invariants_fields (rows : list dict) :
  table_invariants rows → Forall fields_ok rows.
Proof.
  intros (_ & _ & _ & H). eapply Forall_impl; [exact H|]. intros row Hrow.
  by apply validate_Ok_iff in Hrow as [? _].
Qed.

Lemma add_task_rows_invariants (rows : list dict) (task_data : dict)
    (uuid4 now_iso : string) (rows' : list dict) :
  table_invariants rows →
  add_task_rows rows task_data uuid4 now_iso = Ok rows' →
  table_invariants rows'.
Proof.
  intros Hinv Hadd. pose proof (table_invariants_fields rows Hinv) as Hf.
  destruct Hinv as (Hcols & Hsome & Hdist & _).
  pose proof (add_task_rows_distinct _ _ _ _ _ Hdist Hadd) as Hdist'.
  pose proof Hadd as Hadd'.
  apply add_task_rows_Ok in Hadd' as (base & -> & Hb & _ & Hv).
  unfold add_task_rows in Hadd.
  destruct (any_task_id_eq rows _) as [[|]|];
    unfold mbind, result_bind in Hadd; lazy beta iota zeta in Hadd; try done.
  set (b := _ensure_columns _) in *.
  destruct (_validate_task_record b (rows ++ [b])) as [[]|]; simpl in Hadd; [|done].
  assert (Hbb : b = base).
  { injection Hadd as Hadd. by apply app_inj_tail in Hadd as [_ ?]. }
  apply table_invariants_intro; try done.
  - apply Forall_app. split; [done|]. apply Forall_singleton. intros col Hin.
    rewrite <- Hbb. unfold b.
    rewrite lookup_ensure_columns, decide_True by done. by eexists.
  - apply Forall_app. split; [done|]. apply Forall_singleton.
    unfold dict_get. rewrite Hb. by eexists.
  - apply Forall_app. split; [done|]. apply Forall_singleton.
    by apply validate_Ok_iff in Hv as [? _].
Qed.

(** X2: Every successful [add_task] on a table that satisfies the invariants of
    the data model returns a table that satisfies them, one record
    longer. *)
Theorem add_task_keeps_invariants (h h' : heap) (t t' : loc) (rows : list dict)
    (task_data : dict) (uuid4 now_iso : string) :
  heap_rows h t = Ok rows → table_invariants rows →
  add_task t task_data uuid4 now_iso h = (h', Ok t') →
  ∃ rows', heap_rows h' t' = Ok rows' ∧ table_invariants rows'
           ∧ length rows' = S (length rows).
Proof.
  intros Hrows Hinv Hrun.
  destruct (add_task_Ok _ _ _ _ _ _ _ _ Hrows Hrun) as (rows' & Hadd & Hr & _).
  exists rows'. split; [done|]. split; [by eapply add_task_rows_invariants|].
  apply add_task_rows_Ok in Hadd as (base & -> & _). rewrite length_app. simpl. lia.
Qed.

Lemma add_task_keeps_invariants_witness :
  ∃ rows', heap_rows (add_task 1%positive (new_data None "b") "u-1" "n1"
                        (store_with task_E)).1 3%positive = Ok rows'
           ∧ table_invariants rows' ∧ length rows' = S (length [task_E]).
Proof.
  apply (add_task_keeps_invariants (store_with task_E) _ 1%positive 3%positive
           [task_E] (new_data None "b") "u-1" "n1").
  - vm_refl.
  - apply task_E_invariants.
  - vm_refl.
Defined.

Lemma find_task_Some (rows : list dict) (task_id : string) (i idx : nat)
    (row : dict) :
  find_task rows task_id i = Ok (Some (idx, row)) →
  (i ≤ idx)%nat ∧ rows !! (idx - i)%nat = Some row
  ∧ row !! "task_id" = Some (Some task_id)
  ∧ ∀ j r, (j < idx - i)%nat → rows !! j = Some r →
           ∃ v, r !! "task_id" = Some v ∧ v ≠ Some task_id.
Proof.
  revert i. induction rows as [|r rows IH]; intros i H; simpl in *; [done|].
  unfold dict_index in H. destruct (r !! "task_id") as [v|] eqn:Hv; simpl in H; [|done].
  case_bool_decide as Hd.
  - simplify_eq. rewrite Nat.sub_diag. repeat split; try done. intros j r' Hj. lia.
  - destruct (IH (S i) H) as (Hle & Hl & Hid & Hbefore).
    split; [lia|]. replace (idx - i)%nat with (S (idx - S i)) by lia.
    split; [done|]. split; [done|].
    intros [|j] r' Hj Hr'; simpl in Hr'.
    + simplify_eq. by exists v.
    + apply (Hbefore j r'); [lia|done].
Qed.

Lemma task_ids_insert (rows : list dict) (ids : list value) (idx : nat)
    (row merged : dict) :
  task_ids rows = Ok ids → rows !! idx = Some row →
  merged !! "task_id" = row !! "task_id" →
  task_ids (<[idx := merged]> rows) = Ok ids.
Proof.
  revert ids idx. induction rows as [|r rows IH]; intros ids idx H Hl Hm; [done|].
  simpl in H. destruct idx as [|idx]; simpl in *.
  - simplify_eq. unfold dict_index in *. by rewrite Hm.
  - destruct (dict_index r "task_id") as [x|]; simpl in *; [|done].
    destruct (task_ids rows) as [xs|] eqn:Hxs; simpl in *; [|done]. simplify_eq.
    by rewrite (IH xs idx eq_refl Hl Hm).
Qed.

Lemma merged_row_lookup (row : dict) (task_id : string) (updates : dict)
    (now_iso : string) (col : string) :
  merged_row row task_id updates now_iso !! col
  = if decide (col = "last_updated") then Some (Some now_iso)
    else if decide (col = "task_id") then Some (Some task_id)
    else if decide (col ∈ COLUMNS)
         then Some (match updates !! col with
                    | Some v => v
                    | None => dict_get row col
                    end)
         else None.
Proof.
  unfold merged_row. rewrite lookup_insert.
  destruct (decide ("last_updated" = col)) as [<-|Hlu].
  { by rewrite decide_True. }
  rewrite decide_False by done. rewrite lookup_insert.
  destruct (decide ("task_id" = col)) as [<-|Hid].
  { by rewrite decide_True. }
  rewrite decide_False by done. rewrite lookup_ensure_columns.
  destruct (decide (col ∈ COLUMNS)) as [Hin|Hin]; [|done].
  f_equal. unfold dict_get, merge_updates. rewrite lookup_union.
  rewrite map_lookup_filter.
  destruct (updates !! col) as [v|] eqn:Hu; simpl.
  - rewrite option_guard_True by done. simpl. by destruct (row !! col).
  - by destruct (row !! col).
Qed.

Lemma update_task_rows_Ok (rows : list dict) (task_id : string) (updates : dict)
    (now_iso : string) (rows' : list dict) :
  update_task_rows rows task_id updates now_iso = Ok rows' →
  ∃ idx row,
    find_task rows task_id 0 = Ok (Some (idx, row))
    ∧ rows !! idx = Some row
    ∧ rows' = <[idx := merged_row row task_id updates now_iso]> rows
    ∧ _validate_task_record (merged_row row task_id updates now_iso) rows' = Ok tt
    ∧ changes_task_id updates task_id = false.
Proof.
  unfold update_task_rows. destruct (changes_task_id updates task_id); [done|].
  destruct (find_task rows task_id 0) as [[[idx row]|]|] eqn:Hf;
    unfold update_found; rstep; try done.
  destruct (_validate_task_record _ _) as [[]|] eqn:Hv; [|done].
  intros [= <-]. exists idx, row. apply find_task_Some in Hf as (_ & Hl & _).
  rewrite Nat.sub_0_r in Hl. done.
Qed.

Lemma update_task_rows_invariants (rows : list dict) (task_id : string)
    (updates : dict) (now_iso : string) (rows' : list dict) :
  table_invariants rows →
  update_task_rows rows task_id updates now_iso = Ok rows' →
  table_invariants rows'.
Proof.
  intros Hinv Hup. pose proof (table_invariants_fields rows Hinv) as Hf.
  destruct Hinv as (Hcols & Hsome & (ids & Hids & Hnd) & _).
  apply update_task_rows_Ok in Hup as (idx & row & Hfind & Hl & -> & Hv & _).
  apply find_task_Some in Hfind as (_ & _ & Hid & _).
  set (merged := merged_row row task_id updates now_iso) in *.
  assert (Hmid : merged !! "task_id" = Some (Some task_id)).
  { unfold merged. rewrite merged_row_lookup. by repeat case_decide. }
  apply table_invariants_intro.
  - apply Forall_insert; [done|]. intros col Hin. unfold merged.
    rewrite merged_row_lookup. repeat case_decide; try done; by eexists.
  - apply Forall_insert; [done|]. unfold dict_get. rewrite Hmid. by eexists.
  - exists ids. split; [|done].
    apply (task_ids_insert rows ids idx row merged Hids Hl). by rewrite Hid.
  - apply Forall_insert; [done|]. by apply validate_Ok_iff in Hv as [? _].
Qed.

(** X3: Every successful [update_task] on a table that satisfies the invariants
    of the data model returns a table that satisfies them, of the same
    length. *)
Theorem update_task_keeps_invariants (h h' : heap) (t t' : loc)
    (rows : list dict) (task_id : string) (updates : dict) (now_iso : string) :
  heap_rows h t = Ok rows → table_invariants rows →
  update_task t task_id updates now_iso h = (h', Ok t') →
  ∃ rows', heap_rows h' t' = Ok rows' ∧ table_invariants rows'
           ∧ length rows' = length rows.
Proof.
  intros Hrows Hinv Hrun.
  destruct (update_task_refines h t rows task_id updates now_iso Hrows)
    as (h1 & r & Hrun' & _ & Hr).
  rewrite Hrun in Hrun'. simplify_eq.
  destruct (update_task_rows rows task_id updates now_iso) as [rows'|] eqn:Hup;
    [|done].
  destruct Hr as (t1 & [= <-] & Hr & _). exists rows'. split; [done|].
  split; [by eapply update_task_rows_invariants|].
  apply update_task_rows_Ok in Hup as (idx & row & _ & _ & -> & _).
  by rewrite length_insert.
Qed.

Lemma update_task_keeps_invariants_witness :
  ∃ rows', heap_rows (update_task 1%positive "E" {[ "status" := Some "Blocked" ]}
                        "n1" (store_with task_E)).1 3%positive = Ok rows'
           ∧ table_invariants rows' ∧ length rows' = length [task_E].
Proof.
  apply (update_task_keeps_invariants (store_with task_E) _ 1%positive 3%positive
           [task_E] "E" {[ "status" := Some "Blocked" ]} "n1").
  - vm_refl.
  - apply task_E_invariants.
  - vm_refl.
Defined.

(** ** Copy on write *)

(** X4: Whatever [add_task] and [update_task] do, no object that was in the
    store before the call is changed: the caller's table reads as before,
    and a table that is returned is a list object that did not exist. *)
Theorem mutations_copy_on_write (h : heap) (t : loc) (rows : list dict) :
  heap_rows h t = Ok rows →
  (∀ (task_data : dict) (uuid4 now_iso : string),
     h ⊆ (add_task t task_data uuid4 now_iso h).1
     ∧ heap_rows (add_task t task_data uuid4 now_iso h).1 t = Ok rows
     ∧ ∀ t', (add_task t task_data uuid4 now_iso h).2 = Ok t' → h !! t' = None)
  ∧ (∀ (task_id : string) (updates : dict) (now_iso : string),
       h ⊆ (update_task t task_id updates now_iso h).1
       ∧ heap_rows (update_task t task_id updates now_iso h).1 t = Ok rows
       ∧ ∀ t', (update_task t task_id updates now_iso h).2 = Ok t' →
               h !! t' = None).
Proof.
  intros Hrows. split.
  - intros task_data uuid4 now_iso.
    destruct (add_task_refines h t rows task_data uuid4 now_iso Hrows)
      as (h' & r & -> & Hsub & Hr). simpl.
    split; [done|]. split; [by eapply heap_rows_mono|].
    intros t' ->. destruct (add_task_rows _ _ _ _); [|done].
    by destruct Hr as (? & [= <-] & _ & ?).
  - intros task_id updates now_iso.
    destruct (update_task_refines h t rows task_id updates now_iso Hrows)
      as (h' & r & -> & Hsub & Hr). simpl.
    split; [done|]. split; [by eapply heap_rows_mono|].
    intros t' ->. destruct (update_task_rows _ _ _ _); [|done].
    by destruct Hr as (? & [= <-] & _ & ?).
Qed.

Lemma mutations_copy_on_write_witness :
  store_with task_E
  ⊆ (add_task 1%positive (new_data None "b") "u-1" "n1" (store_with task_E)).1
  ∧ heap_rows (update_task 1%positive "E" {[ "status" := Some "Blocked" ]} "n1"
                 (store_with task_E)).1 1%positive = Ok [task_E].
Proof.
  assert (H : heap_rows (store_with task_E) 1%positive = Ok [task_E])
    by (vm_refl).
  split.
  - exact (proj1 (proj1 (mutations_copy_on_write _ _ _ H)
                    (new_data None "b") "u-1" "n1")).
  - exact (proj1 (proj2 (proj2 (mutations_copy_on_write _ _ _ H)
                           "E" {[ "status" := Some "Blocked" ]} "n1"))).
Defined.

(** ** Errors of the queries *)

Lemma validate_date_Err (v : value) (field : string) (e : exn) :
  _validate_date v field = Err e →
  e = ValueError (field +:+ " must be in YYYY-MM-DD format").
Proof.
  unfold _validate_date. destruct v as [s|]; [|done].
  case_bool_decide; [done|]. destruct (strptime_ymd s); [done|]. congruence.
Qed.

Lemma overdue_loop_Ok (rows : list dict) (today : date) (acc out : list dict) :
  overdue_loop rows today acc = Ok out → due_dates_ok rows.
Proof.
  revert acc. induction rows as [|row rows IH]; intros acc H; [apply Forall_nil_2|].
  cbn [overdue_loop] in H.
  destruct (_validate_date (dict_get row "due_date") "due_date") as [d|] eqn:Hd;
    [|done].
  rewrite result_bind_Ok in H. apply Forall_cons. split; [by exists d|].
  destruct d as [d|]; [|by eapply IH].
  destruct (date_ltb d today && _); by eapply IH.
Qed.

Lemma overdue_loop_Err (rows : list dict) (today : date) (acc : list dict)
    (e : exn) :
  overdue_loop rows today acc = Err e →
  e = ValueError "due_date must be in YYYY-MM-DD format".
Proof.
  revert acc. induction rows as [|row rows IH]; intros acc H; [done|].
  cbn [overdue_loop] in H.
  destruct (_validate_date (dict_get row "due_date") "due_date") as [d|] eqn:Hd.
  - rewrite result_bind_Ok in H. destruct d as [d|]; [|by eapply IH].
    destruct (date_ltb d today && _); by eapply IH.
  - unfold mbind, result_bind in H. simplify_eq. by apply validate_date_Err in Hd.
Qed.

Lemma sort_key_Ok (row : dict) (k : nat * date) :
  sort_key row = Ok k →
  ∃ d, _validate_date (dict_get row "due_date") "due_date" = Ok d.
Proof.
  unfold sort_key, _due_key.
  destruct (_validate_date (dict_get row "due_date") "due_date") as [d|]; [|done].
  intros _. by exists d.
Qed.

Lemma decorate_sort_key_Err (table : list dict) (e : exn) :
  decorate sort_key table = Err e →
  e = ValueError "due_date must be in YYYY-MM-DD format".
Proof.
  induction table as [|row table IH]; [done|]. cbn [decorate].
  destruct (sort_key row) as [k|e'] eqn:Hk.
  - rewrite result_bind_Ok. destruct (decorate sort_key table) as [ks|e'']; [done|].
    unfold mbind, result_bind. intros [= <-]. by apply IH.
  - unfold mbind, result_bind. intros [= <-]. unfold sort_key, _due_key in Hk.
    destruct (_validate_date (dict_get row "due_date") "due_date") as [d|e''] eqn:Hd;
      [done|].
    unfold mbind, result_bind in Hk. simplify_eq. by apply validate_date_Err in Hd.
Qed.

(** X5: [overdue_tasks] and the composite sort return a result exactly on the
    tables whose due dates are all absent, empty or dates; on the others
    they raise [ValueError("due_date must be in YYYY-MM-DD format")]. *)
Theorem due_date_errors (table : list dict) (today date_today : date) :
  ((∃ out, overdue_tasks table (Some today) date_today = Ok out)
   ↔ due_dates_ok table)
  ∧ ((∃ out, sort_tasks_by_priority_and_due_date table = Ok out)
     ↔ due_dates_ok table)
  ∧ (∀ e, overdue_tasks table (Some today) date_today = Err e →
          e = ValueError "due_date must be in YYYY-MM-DD format")
  ∧ (∀ e, sort_tasks_by_priority_and_due_date table = Err e →
          e = ValueError "due_date must be in YYYY-MM-DD format").
Proof.
  repeat split.
  - intros [out H]. by eapply overdue_loop_Ok.
  - intros H. eexists. unfold overdue_tasks. by rewrite overdue_loop_spec.
  - intros [out H]. unfold sort_tasks_by_priority_and_due_date, sorted in H.
    destruct (decorate sort_key table) as [keyed|] eqn:Hd; [|done].
    destruct (decorate_inv _ _ _ Hd) as [<- HF]. apply Forall_fmap.
    eapply Forall_impl; [exact HF|]. intros p Hp.
    exact (sort_key_Ok _ _ Hp).
  - intros H. unfold sort_tasks_by_priority_and_due_date, sorted.
    destruct (decorate_total sort_key table) as [keyed ->]; [|by eexists].
    eapply Forall_impl; [exact H|]. intros row. apply sort_key_total.
  - intros e H. by eapply overdue_loop_Err.
  - intros e H. unfold sort_tasks_by_priority_and_due_date, sorted in H.
    destruct (decorate sort_key table) as [keyed|e'] eqn:Hd; [done|].
    unfold mbind, result_bind in H. simplify_eq. by eapply decorate_sort_key_Err.
Qed.

Lemma due_date_errors_witness :
  ValueError "due_date must be in YYYY-MM-DD format"
  = ValueError "due_date must be in YYYY-MM-DD format"
  ∧ due_dates_ok [task_A; task_E].
Proof.
  split.
  - apply (proj2 (proj2 (proj2 (due_date_errors [task_A; task_bad_due]
                                  (mk_date 2024 1 10) (mk_date 2024 1 10))))).
    vm_refl.
  - apply (proj1 (proj1 (due_date_errors [task_A; task_E]
                           (mk_date 2024 1 10) (mk_date 2024 1 10)))).
    exists [task_E]. vm_refl.
Defined.

(** ** What a successful mutation returns *)

Lemma new_task_lookup (task_data : dict) (task_id now_iso : string) (col : string) :
  _ensure_columns (<["last_updated" := Some now_iso]>
                     (<["task_id" := Some task_id]> task_data)) !! col
  = if decide (col = "last_updated") then Some (Some now_iso)
    else if decide (col = "task_id") then Some (Some task_id)
    else if decide (col ∈ COLUMNS) then Some (dict_get task_data col)
    else None.
Proof.
  rewrite lookup_ensure_columns. unfold dict_get.
  destruct (decide (col = "last_updated")) as [->|Hlu].
  { rewrite decide_True by (unfold COLUMNS; in_list). by rewrite lookup_insert_eq. }
  destruct (decide (col = "task_id")) as [->|Hid].
  { rewrite decide_True by (unfold COLUMNS; in_list).
    rewrite lookup_insert_ne by done. by rewrite lookup_insert_eq. }
  destruct (decide (col ∈ COLUMNS)); [|done].
  by rewrite !lookup_insert_ne by done.
Qed.

(** X6: A successful [add_task] returns the rows of the table followed by one
    record: it has the columns and no other key, the id that was supplied
    (a generated one when none or the empty one was), the time of the call
    as [last_updated] whatever the data say, and under every other column
    what the data hold, [None] when they hold nothing. *)
Theorem add_task_appends (h h' : heap) (t t' : loc) (rows : list dict)
    (task_data : dict) (uuid4 now_iso : string) :
  heap_rows h t = Ok rows →
  add_task t task_data uuid4 now_iso h = (h', Ok t') →
  ∃ new_row : dict,
    heap_rows h' t' = Ok (rows ++ [new_row])
    ∧ new_row !! "task_id"
      = Some (Some (or_str (dict_get task_data "task_id") uuid4))
    ∧ new_row !! "last_updated" = Some (Some now_iso)
    ∧ (∀ col, col ∈ COLUMNS → col ≠ "task_id" → col ≠ "last_updated" →
              new_row !! col = Some (dict_get task_data col))
    ∧ (∀ col, col ∉ COLUMNS → new_row !! col = None)
    ∧ _validate_task_record new_row (rows ++ [new_row]) = Ok tt.
Proof.
  intros Hrows Hrun.
  destruct (add_task_Ok _ _ _ _ _ _ _ _ Hrows Hrun) as (rows' & Hadd & Hr & _).
  unfold add_task_rows in Hadd.
  destruct (any_task_id_eq rows _) as [[|]|];
    unfold mbind, result_bind in Hadd; lazy beta iota zeta in Hadd; try done.
  set (b := _ensure_columns _) in *.
  destruct (_validate_task_record b (rows ++ [b])) as [[]|] eqn:Hv; [|done].
  simplify_eq. exists b. split; [done|].
  assert (Hb : ∀ col, b !! col = _) by (intros col; apply new_task_lookup).
  split; [rewrite Hb; by repeat case_decide|].
  split; [rewrite Hb; by repeat case_decide|]. split; [|split; [|done]].
  - intros col Hin H1 H2. rewrite Hb. by repeat case_decide.
  - intros col Hnin. rewrite Hb. repeat case_decide; try done.
    + subst. exfalso. apply Hnin. unfold COLUMNS. in_list.
    + subst. exfalso. apply Hnin. unfold COLUMNS. in_list.
Qed.

Lemma add_task_appends_witness :
  ∃ new_row : dict,
    heap_rows (add_task 1%positive (new_data None "b") "u-1" "n1"
                 (store_with task_E)).1 3%positive = Ok ([task_E] ++ [new_row])
    ∧ new_row !! "task_id"
      = Some (Some (or_str (dict_get (new_data None "b") "task_id") "u-1"))
    ∧ new_row !! "last_updated" = Some (Some "n1")
    ∧ (∀ col, col ∈ COLUMNS → col ≠ "task_id" → col ≠ "last_updated" →
              new_row !! col = Some (dict_get (new_data None "b") col))
    ∧ (∀ col, col ∉ COLUMNS → new_row !! col = None)
    ∧ _validate_task_record new_row ([task_E] ++ [new_row]) = Ok tt.
Proof.
  apply (add_task_appends (store_with task_E) _ 1%positive 3%positive [task_E]
           (new_data None "b") "u-1" "n1").
  - vm_refl.
  - vm_refl.
Defined.

(** X7: A successful [update_task] returns the rows of the table with one
    record replaced, the first whose id is the given one: the new record
    keeps the id, carries the time of the call as [last_updated], holds
    under every other column what [updates] binds it to and otherwise what
    the old record held, and has no key that is not a column. *)
Theorem update_task_replaces (h h' : heap) (t t' : loc) (rows : list dict)
    (task_id : string) (updates : dict) (now_iso : string) :
  heap_rows h t = Ok rows →
  update_task t task_id updates now_iso h = (h', Ok t') →
  ∃ (idx : nat) (old_row new_row : dict),
    rows !! idx = Some old_row
    ∧ old_row !! "task_id" = Some (Some task_id)
    ∧ (∀ j r, (j < idx)%nat → rows !! j = Some r →
              r !! "task_id" ≠ Some (Some task_id))
    ∧ heap_rows h' t' = Ok (<[idx := new_row]> rows)
    ∧ new_row !! "task_id" = Some (Some task_id)
    ∧ new_row !! "last_updated" = Some (Some now_iso)
    ∧ (∀ col, col ∈ COLUMNS → col ≠ "task_id" → col ≠ "last_updated" →
              new_row !! col
              = Some (match updates !! col with
                      | Some v => v
                      | None => dict_get old_row col
                      end))
    ∧ (∀ col, col ∉ COLUMNS → new_row !! col = None).
Proof.
  intros Hrows Hrun.
  destruct (update_task_refines h t rows task_id updates now_iso Hrows)
    as (h1 & r & Hrun' & _ & Hr).
  rewrite Hrun in Hrun'. simplify_eq.
  destruct (update_task_rows rows task_id updates now_iso) as [rows'|] eqn:Hup;
    [|done].
  destruct Hr as (t1 & [= <-] & Hr & _).
  apply update_task_rows_Ok in Hup as (idx & row & Hfind & Hl & -> & _ & _).
  apply find_task_Some in Hfind as (_ & _ & Hid & Hbefore).
  exists idx, row, (merged_row row task_id updates now_iso).
  assert (Hm : ∀ col, merged_row row task_id updates now_iso !! col = _)
    by (intros col; apply merged_row_lookup).
  split; [done|]. split; [done|]. split.
  { intros j r' Hj Hr'. destruct (Hbefore j r') as (v & Hv & Hne); [lia|done|].
    rewrite Hv. congruence. }
  split; [done|].
  split; [rewrite Hm; by repeat case_decide|].
  split; [rewrite Hm; by repeat case_decide|]. split.
  - intros col Hin H1 H2. rewrite Hm. by repeat case_decide.
  - intros col Hnin. rewrite Hm. repeat case_decide; try done.
    + subst. exfalso. apply Hnin. unfold COLUMNS. in_list.
    + subst. exfalso. apply Hnin. unfold COLUMNS. in_list.
Qed.

Lemma update_task_replaces_witness :
  ∃ (idx : nat) (old_row new_row : dict),
    [task_E] !! idx = Some old_row
    ∧ old_row !! "task_id" = Some (Some "E")
    ∧ (∀ j r, (j < idx)%nat → [task_E] !! j = Some r →
              r !! "task_id" ≠ Some (Some "E"))
    ∧ heap_rows (update_task 1%positive "E" {[ "status" := Some "Blocked" ]} "n1"
                   (store_with task_E)).1 3%positive
      = Ok (<[idx := new_row]> [task_E])
    ∧ new_row !! "task_id" = Some (Some "E")
    ∧ new_row !! "last_updated" = Some (Some "n1")
    ∧ (∀ col, col ∈ COLUMNS → col ≠ "task_id" → col ≠ "last_updated" →
              new_row !! col
              = Some (match ({[ "status" := Some "Blocked" ]} : dict) !! col with
                      | Some v => v
                      | None => dict_get old_row col
                      end))
    ∧ (∀ col, col ∉ COLUMNS → new_row !! col = None).
Proof.
  apply (update_task_replaces (store_with task_E) _ 1%positive 3%positive
           [task_E] "E" {[ "status" := Some "Blocked" ]} "n1").
  - vm_refl.
  - vm_refl.
Defined.

(** ** The order of the dates on creation *)

Lemma new_task_get (task_data : dict) (task_id now_iso : string) (col : string) :
  col ∈ COLUMNS → col ≠ "task_id" → col ≠ "last_updated" →
  dict_get (_ensure_columns (<["last_updated" := Some now_iso]>
                               (<["task_id" := Some task_id]> task_data))) col
  = dict_get task_data col.
Proof.
  intros Hin H1 H2. unfold dict_get at 1. rewrite new_task_lookup.
  by rewrite !decide_False, decide_True by done.
Qed.

Lemma validate_date_parsed (s field : string) (d : date) :
  strptime_ymd s = Some d → _validate_date (Some s) field = Ok (Some d).
Proof.
  intros H. unfold _validate_date. case_bool_decide as Hs.
  - subst s. discriminate H.
  - by rewrite H.
Qed.

(** X8: Adding a record whose start date is after its due date fails with
    [ValueError("start_date must be on or before due_date")], whatever the
    table, when nothing that is checked before stands in the way (the id
    is free, the name is not blank, priority and status are of the enums,
    the three dates parse); the caller's table is unchanged. *)
Theorem add_task_start_after_due (h : heap) (t : loc) (rows : list dict)
    (ids : list value) (task_data : dict) (name start due uuid4 now_iso : string)
    (d_start d_due : date) (completion : option date) :
  heap_rows h t = Ok rows →
  task_ids rows = Ok ids →
  Some (or_str (dict_get task_data "task_id") uuid4) ∉ ids →
  task_data !! "task_name" = Some (Some name) → all_space name = false →
  value_in (dict_get task_data "priority") PRIORITIES = true →
  value_in (dict_get task_data "status") STATUSES = true →
  dict_get task_data "start_date" = Some start →
  strptime_ymd start = Some d_start →
  dict_get task_data "due_date" = Some due →
  strptime_ymd due = Some d_due →
  _validate_date (dict_get task_data "completion_date") "completion_date"
  = Ok completion →
  date_ltb d_due d_start = true →
  ∃ h', add_task t task_data uuid4 now_iso h
        = (h', Err (ValueError "start_date must be on or before due_date"))
        ∧ heap_rows h' t = Ok rows ∧ h ⊆ h'.
Proof.
  intros Hrows Hids Hnin Hname Hsp Hp Hst Hs Hds Hd Hdd Hc Hlt.
  apply (add_task_Err h t rows); [done|]. unfold add_task_rows.
  rewrite (proj2 (any_task_id_eq_false rows _)) by eauto. rstep.
  set (base := _ensure_columns _).
  assert (Hget : ∀ col, col ∈ COLUMNS → col ≠ "task_id" → col ≠ "last_updated" →
                        dict_get base col = dict_get task_data col)
    by (intros col; apply new_task_get).
  assert (Hn : base !! "task_name" = Some (Some name)).
  { unfold base. rewrite new_task_name. unfold dict_get. by rewrite Hname. }
  assert (Hv : _validate_task_record base (rows ++ [base])
               = Err (ValueError "start_date must be on or before due_date")).
  { unfold _validate_task_record, dict_get_default.
    rewrite Hn. cbn [default from_option id value_strip]. rewrite result_bind_Ok.
    rewrite bool_decide_false.
    2:{ intros E. apply strip_empty_iff in E. congruence. }
    rewrite !Hget by (done || (unfold COLUMNS; in_list)).
    rewrite Hp, Hst, Hs, Hd, Hc. cbn [negb].
    rewrite (validate_date_parsed _ _ _ Hds), (validate_date_parsed _ _ _ Hdd).
    rewrite !result_bind_Ok. cbn [both_and_gt]. by rewrite Hlt. }
  by rewrite Hv.
Qed.

Lemma add_task_start_after_due_witness :
  ∃ h', add_task 1%positive
          (<["start_date" := Some "2024-02-01"]>
             (<["due_date" := Some "2024-01-01"]> (new_data None "b")))
          "u-1" "n1" (store_with task_E)
        = (h', Err (ValueError "start_date must be on or before due_date"))
        ∧ heap_rows h' 1%positive = Ok [task_E] ∧ store_with task_E ⊆ h'.
Proof.
  apply (add_task_start_after_due (store_with task_E) 1%positive [task_E]
           [Some "E"] _ "b" "2024-02-01" "2024-01-01" "u-1" "n1"
           (mk_date 2024 2 1) (mk_date 2024 1 1) None).
  - vm_refl.
  - vm_refl.
  - vm_compute. intros H. apply list_elem_of_singleton in H. discriminate H.
  - vm_refl.
  - vm_refl.
  - vm_refl.
  - vm_refl.
  - vm_refl.
  - vm_refl.
  - vm_refl.
  - vm_refl.
  - vm_refl.
  - vm_refl.
Defined.

(** ** Filters and listing *)

Lemma matches_spec (status category assigned_to : value) (row : dict) :
  _matches status category assigned_to row = true
  ↔ (truthy status = true → dict_get row "status" = status)
    ∧ (truthy category = true → dict_get row "category" = category)
    ∧ (truthy assigned_to = true → dict_get row "assigned_to" = assigned_to).
Proof.
  unfold _matches.
  destruct (truthy status), (truthy category), (truthy assigned_to);
    repeat case_bool_decide; cbn [andb negb];
    intuition (done || congruence).
Qed.

Lemma matches_falsy (status category assigned_to : value) (row : dict) :
  _matches status category assigned_to row
  = _matches (if truthy status then status else None)
             (if truthy category then category else None)
             (if truthy assigned_to then assigned_to else None) row.
Proof.
  unfold _matches.
  by destruct (truthy status) eqn:E1, (truthy category) eqn:E2,
       (truthy assigned_to) eqn:E3; rewrite ?E1, ?E2, ?E3.
Qed.

Lemma filter_tasks_falsy (table : list dict) (status category assigned_to : value) :
  truthy status = false → truthy category = false →
  truthy assigned_to = false →
  filter_tasks table status category assigned_to = table.
Proof.
  intros H1 H2 H3. unfold filter_tasks.
  induction table as [|r rest IH]; [done|].
  rewrite filter_cons_True; [by rewrite IH|].
  unfold _matches. by rewrite H1, H2, H3.
Qed.

(** X9: [filter_tasks] keeps exactly the rows that agree with every criterion
    given; a criterion that is [None] or the empty string is not a
    criterion. The rows kept are in the order of the table, and without
    criteria the table comes back as it is. *)
Theorem filter_tasks_spec (table : list dict) (status category assigned_to : value) :
  (∀ row, row ∈ filter_tasks table status category assigned_to
          ↔ row ∈ table
            ∧ (truthy status = true → dict_get row "status" = status)
            ∧ (truthy category = true → dict_get row "category" = category)
            ∧ (truthy assigned_to = true
               → dict_get row "assigned_to" = assigned_to))
  ∧ filter_tasks table status category assigned_to `sublist_of` table
  ∧ filter_tasks table None None None = table
  ∧ filter_tasks table (Some "") (Some "") (Some "") = table
  ∧ filter_tasks table status category assigned_to
    = filter_tasks table (if truthy status then status else None)
        (if truthy category then category else None)
        (if truthy assigned_to then assigned_to else None).
Proof.
  split; [|split; [|split; [|split]]].
  - intros row. unfold filter_tasks. rewrite list_elem_of_filter.
    rewrite Is_true_true, matches_spec. tauto.
  - apply sublist_filter.
  - by apply filter_tasks_falsy.
  - by apply filter_tasks_falsy.
  - unfold filter_tasks. apply list_filter_iff. intros row.
    by rewrite matches_falsy.
Qed.

Lemma filter_tasks_spec_witness :
  task_B ∈ filter_tasks [task_A; task_B; task_C] (Some "To Do") None (Some "")
  ↔ task_B ∈ [task_A; task_B; task_C]
    ∧ (truthy (Some "To Do") = true → dict_get task_B "status" = Some "To Do")
    ∧ (truthy None = true → dict_get task_B "category" = None)
    ∧ (truthy (Some "") = true → dict_get task_B "assigned_to" = Some "").
Proof.
  apply (proj1 (filter_tasks_spec [task_A; task_B; task_C]
                  (Some "To Do") None (Some ""))).
Defined.

(** X10: Filtering twice is filtering once by both sets of criteria, in either
    order, and filtering by one criterion after the other is filtering by
    all of them at once. *)
Theorem filter_tasks_compose (table : list dict) (s c a s' c' a' : value) :
  filter_tasks (filter_tasks table s c a) s' c' a'
  = filter_tasks (filter_tasks table s' c' a') s c a
  ∧ filter_tasks (filter_tasks table s c a) s c a = filter_tasks table s c a
  ∧ filter_tasks (filter_tasks (filter_tasks table s None None) None c None)
      None None a
    = filter_tasks table s c a.
Proof.
  unfold filter_tasks. split; [|split].
  - rewrite !list_filter_filter. apply list_filter_iff. intros row. tauto.
  - rewrite list_filter_filter. apply list_filter_iff. intros row. tauto.
  - rewrite !list_filter_filter. apply list_filter_iff. intros row.
    rewrite !Is_true_true, !matches_spec. cbn [truthy].
    intuition (done || congruence).
Qed.

Lemma sorted_perm {A K : Type} (key : A → result K) (ltb : K → K → bool)
    (l out : list A) :
  sorted key ltb l = Ok out → out ≡ₚ l.
Proof.
  unfold sorted. intros H.
  destruct (decorate key l) as [keyed|e] eqn:Hk; [|discriminate H].
  rewrite result_bind_Ok in H. injection H as <-.
  rewrite (sort_by_perm ltb keyed).
  clear -Hk. revert keyed Hk. induction l as [|x rest IH]; intros keyed Hk.
  - cbn [decorate] in Hk. by injection Hk as <-.
  - cbn [decorate] in Hk. destruct (key x) as [k|e]; [|discriminate Hk].
    rewrite result_bind_Ok in Hk.
    destruct (decorate key rest) as [ks|e]; [|discriminate Hk].
    rewrite result_bind_Ok in Hk. injection Hk as <-.
    cbn [fmap list_fmap snd]. by rewrite (IH ks).
Qed.

Lemma get_tasks_filtered (table : list dict) (filters : dict) :
  (if bool_decide (filters = ∅) then table
   else filter_tasks table (dict_get filters "status")
          (dict_get filters "category") (dict_get filters "assigned_to"))
  = filter_tasks table (dict_get filters "status")
      (dict_get filters "category") (dict_get filters "assigned_to").
Proof.
  case_bool_decide as He; [|done]. subst filters. unfold dict_get.
  rewrite !lookup_empty. cbn [default from_option id].
  symmetry. by apply filter_tasks_falsy.
Qed.

(** X11: [get_tasks] without filters and without a sort returns the rows of the
    table as they are, and so it does with an empty dict of filters and
    the empty string as the sort; whatever the arguments, the rows it
    returns are the rows [filter_tasks] keeps for the three criteria read
    from the filters, rearranged; a sort by one field never fails, and
    without a sort the result is the filtered table itself. *)
Theorem get_tasks_spec (table : list dict) :
  get_tasks table None None = Ok table
  ∧ get_tasks table (Some ∅) (Some "") = Ok table
  ∧ (∀ (filters : option dict) (sort_by : value) (out : list dict),
       get_tasks table filters sort_by = Ok out →
       out ≡ₚ filter_tasks table
                (dict_get (default ∅ filters) "status")
                (dict_get (default ∅ filters) "category")
                (dict_get (default ∅ filters) "assigned_to"))
  ∧ (∀ (filters : option dict) (sort_by : value),
       sort_by ≠ Some "priority_due" →
       ∃ out, get_tasks table filters sort_by = Ok out)
  ∧ (∀ filters : option dict,
       get_tasks table filters None
       = Ok (filter_tasks table
               (dict_get (default ∅ filters) "status")
               (dict_get (default ∅ filters) "category")
               (dict_get (default ∅ filters) "assigned_to"))).
Proof.
  split; [done|]. split; [done|]. split; [|split].
  - intros filters sort_by out. unfold get_tasks. lazy zeta.
    rewrite get_tasks_filtered. case_bool_decide as Hs.
    + apply sorted_perm.
    + destruct sort_by as [s|].
      * case_bool_decide; [by intros [= <-]|]. apply sorted_perm.
      * by intros [= <-].
  - intros filters sort_by Hs. unfold get_tasks. lazy zeta.
    rewrite bool_decide_false by done. destruct sort_by as [s|]; [|by eexists].
    case_bool_decide; [by eexists|]. unfold sorted.
    destruct (decorate_total (field_key s)
                (if bool_decide (default ∅ filters = ∅) then table
                 else filter_tasks table (dict_get (default ∅ filters) "status")
                        (dict_get (default ∅ filters) "category")
                        (dict_get (default ∅ filters) "assigned_to")))
      as [keyed ->]; [apply Forall_forall; intros row _; by eexists|].
    rewrite result_bind_Ok. by eexists.
  - intros filters. unfold get_tasks. lazy zeta.
    by rewrite get_tasks_filtered.
Qed.

Lemma get_tasks_spec_witness :
  [task_C; task_B; task_A]
  ≡ₚ filter_tasks [task_A; task_B; task_C]
       (dict_get (default ∅ (Some {["status" := Some "To Do"]})) "status")
       (dict_get (default ∅ (Some {["status" := Some "To Do"]})) "category")
       (dict_get (default ∅ (Some {["status" := Some "To Do"]})) "assigned_to").
Proof.
  apply (proj1 (proj2 (proj2 (get_tasks_spec [task_A; task_B; task_C])))
           (Some {["status" := Some "To Do"]}) (Some "priority_due")).
  vm_refl.
Defined.

(** ** Dates *)

Lemma make_date_valid (y m d : Z) (dt : date) :
  make_date y m d = Some dt → valid_date dt.
Proof.
  unfold make_date, valid_date.
  destruct ((1 <=? y)%Z && (y <=? 9999)%Z && (1 <=? m)%Z && (m <=? 12)%Z
            && (1 <=? d)%Z && (d <=? days_in_month y m)%Z) eqn:E; [|done].
  intros [= <-]. cbn [year month day].
  rewrite !andb_true_iff, !Z.leb_le in E. lia.
Qed.

Lemma strptime_ymd_valid (s : string) (d : date) :
  strptime_ymd s = Some d → valid_date d.
Proof.
  unfold strptime_ymd.
  destruct (list_ascii_of_string s) as [|y1 [|y2 [|y3 [|y4 [|dash rest]]]]];
    try done.
  destruct (digit y1) as [a|]; [|done]. destruct (digit y2) as [b|]; [|done].
  destruct (digit y3) as [c|]; [|done]. destruct (digit y4) as [e|]; [|done].
  cbn [mbind option_bind]. case_bool_decide; [|done].
  destruct (parse_month rest) as [[m rest']|]; [|done]. cbn [mbind option_bind].
  destruct (parse_day rest') as [dd|]; [|done]. cbn [mbind option_bind].
  apply make_date_valid.
Qed.

Lemma valid_date_le_max (d : date) : valid_date d → date_ltb date_max d = false.
Proof.
  intros (Hy & Hm & Hd). apply not_true_iff_false. unfold date_ltb, date_max.
  cbn [year month day].
  rewrite !orb_true_iff, !andb_true_iff, !Z.ltb_lt, !Z.eqb_eq.
  assert (days_in_month (year d) (month d) <= 31)%Z.
  { unfold days_in_month. repeat case_match; lia. }
  lia.
Qed.

Lemma validate_date_None_iff (v : value) (field : string) :
  _validate_date v field = Ok None ↔ is_none_or_empty v = true.
Proof.
  unfold _validate_date, is_none_or_empty. destruct v as [s|]; [|done].
  case_bool_decide; [done|]. destruct (strptime_ymd s); split; done.
Qed.

Lemma validate_date_valid (v : value) (field : string) (d : date) :
  _validate_date v field = Ok (Some d) → valid_date d.
Proof.
  unfold _validate_date. destruct v as [s|]; [|done].
  case_bool_decide; [done|].
  destruct (strptime_ymd s) as [d'|] eqn:E; [|done].
  intros [= <-]. by apply (strptime_ymd_valid s).
Qed.

(** X12: [_validate_date] returns [None] exactly for [None] and the empty
    string, a date it returns is a date of the calendar (year 1 to 9999,
    month 1 to 12, a day the month has), and the only error is the
    [ValueError] that names the field. *)
Theorem validate_date_spec (v : value) (field : string) :
  (_validate_date v field = Ok None ↔ is_none_or_empty v = true)
  ∧ (∀ d, _validate_date v field = Ok (Some d) → valid_date d)
  ∧ (∀ e, _validate_date v field = Err e →
          e = ValueError (field +:+ " must be in YYYY-MM-DD format")).
Proof.
  split; [|split].
  - apply validate_date_None_iff.
  - intros d. apply validate_date_valid.
  - intros e. apply validate_date_Err.
Qed.

Lemma validate_date_spec_witness :
  valid_date (mk_date 2024 2 29).
Proof.
  apply (proj1 (proj2 (validate_date_spec (Some "2024-02-29") "due_date"))).
  vm_refl.
Defined.

(** ** The order of the sort *)

Lemma sort_key_rank (row : dict) (k : nat * date) :
  sort_key row = Ok k → k.1 = priority_rank (dict_get row "priority").
Proof.
  unfold sort_key, _due_key.
  destruct (_validate_date (dict_get row "due_date") "due_date") as [d|]; [|done].
  rewrite !result_bind_Ok. by intros [= <-].
Qed.

Lemma StronglySorted_lookup {A : Type} (R : A → A → Prop) (l : list A)
    (i j : nat) (x y : A) :
  StronglySorted R l → (i < j)%nat → l !! i = Some x → l !! j = Some y → R x y.
Proof.
  intros Hs. revert i j. induction Hs as [|a l Hs IH Hall]; intros i j Hij Hx Hy.
  - done.
  - destruct j as [|j]; [lia|]. destruct i as [|i].
    + cbn in Hx, Hy. injection Hx as <-. rewrite Forall_forall in Hall.
      apply Hall. by eapply list_elem_of_lookup_2.
    + cbn in Hx, Hy. apply (IH i j); [lia|done|done].
Qed.

(** X13: The rows come back in the order of their keys: of two rows of the
    result the earlier one has the smaller priority rank, or the same rank
    and a due date that is not later. The ranks follow [PRIORITIES], so
    Low comes first and Urgent last, and a priority outside the list
    comes after all of them; a row without a due date has [date.max] as
    its date, which no date exceeds, so it comes last within its rank. *)
Theorem sort_tasks_order (table out : list dict) :
  sort_tasks_by_priority_and_due_date table = Ok out →
  out ≡ₚ table
  ∧ (∀ (i j : nat) (r1 r2 : dict),
       (i < j)%nat → out !! i = Some r1 → out !! j = Some r2 →
       ∃ d1 d2,
         sort_key r1 = Ok (priority_rank (dict_get r1 "priority"), d1)
         ∧ sort_key r2 = Ok (priority_rank (dict_get r2 "priority"), d2)
         ∧ ((priority_rank (dict_get r1 "priority")
             < priority_rank (dict_get r2 "priority"))%nat
            ∨ (priority_rank (dict_get r1 "priority")
               = priority_rank (dict_get r2 "priority")
               ∧ date_ltb d2 d1 = false)))
  ∧ (∀ row d, row ∈ out →
       sort_key row = Ok (priority_rank (dict_get row "priority"), d) →
       (is_none_or_empty (dict_get row "due_date") = true → d = date_max)
       ∧ date_ltb date_max d = false)
  ∧ (∀ v, priority_rank v
          = if value_in v PRIORITIES
            then (if bool_decide (v = Some "Low") then 0
                  else if bool_decide (v = Some "Medium") then 1
                  else if bool_decide (v = Some "High") then 2 else 3)%nat
            else 4%nat).
Proof.
  intros H. destruct (sort_tasks_sorted table out H)
    as (Hperm & keyed & Hout & Hkeys & Hsorted).
  split; [done|]. split; [|split].
  - intros i j r1 r2 Hij H1 H2. subst out.
    rewrite list_lookup_fmap in H1, H2.
    destruct (keyed !! i) as [[k1 x1]|] eqn:E1; [|done].
    destruct (keyed !! j) as [[k2 x2]|] eqn:E2; [|done].
    cbn in H1, H2. injection H1 as ->. injection H2 as ->.
    rewrite Forall_forall in Hkeys.
    pose proof (Hkeys _ (list_elem_of_lookup_2 _ _ _ E1)) as K1.
    pose proof (Hkeys _ (list_elem_of_lookup_2 _ _ _ E2)) as K2.
    cbn [fst snd] in K1, K2.
    pose proof (sort_key_rank _ _ K1) as F1.
    pose proof (sort_key_rank _ _ K2) as F2.
    assert (Hle : key_le k1 k2).
    { apply (StronglySorted_lookup
               (fun p q : (nat * date) * dict => key_le p.1 q.1) keyed i j
               (k1, r1) (k2, r2)); done. }
    destruct k1 as [n1 d1], k2 as [n2 d2]. cbn [fst] in F1, F2. subst n1 n2.
    exists d1, d2. split; [done|]. split; [done|].
    unfold key_le, key_ltb in Hle. cbn [fst snd] in Hle.
    apply orb_false_iff in Hle as [Hlt Hle]. apply Nat.ltb_ge in Hlt.
    destruct (decide (priority_rank (dict_get r1 "priority")
                      = priority_rank (dict_get r2 "priority"))) as [E|E].
    + right. split; [done|].
      rewrite E, Nat.eqb_refl in Hle. by cbn [andb] in Hle.
    + left. lia.
  - intros row d _ Hk. unfold sort_key, _due_key in Hk.
    destruct (_validate_date (dict_get row "due_date") "due_date")
      as [[d'|]|e] eqn:Hv; [| |discriminate Hk].
    + rewrite !result_bind_Ok in Hk. cbn [default from_option id] in Hk.
      injection Hk as <-. split.
      * intros Hn.
        apply (validate_date_None_iff _ "due_date") in Hn. congruence.
      * apply valid_date_le_max. by eapply validate_date_valid.
    + rewrite !result_bind_Ok in Hk. cbn [default from_option id] in Hk.
      injection Hk as <-. split; [done|]. vm_refl.
  - intros [s|]; [|done]. unfold value_in, PRIORITIES.
    destruct (decide (s = "Low")) as [->|H1]; [done|].
    destruct (decide (s = "Medium")) as [->|H2]; [done|].
    destruct (decide (s = "High")) as [->|H3]; [done|].
    destruct (decide (s = "Urgent")) as [->|H4]; [done|].
    rewrite bool_decide_false.
    2:{ intros Hin. repeat (apply elem_of_cons in Hin as [Hin|Hin]; [done|]).
        by apply elem_of_nil in Hin. }
    unfold priority_rank, PRIORITIES.
    cbn [list_find fmap option_fmap option_map].
    by rewrite !decide_False by done.
Qed.

Lemma sort_tasks_order_witness :
  [task_C; task_B; task_A] ≡ₚ [task_A; task_B; task_C].
Proof.
  apply (sort_tasks_order [task_A; task_B; task_C] [task_C; task_B; task_A]).
  vm_refl.
Defined.

(** ** Imported tables *)

Lemma or_none_not_empty (v : value) : or_none v ≠ Some "".
Proof.
  unfold or_none, truthy. destruct v as [s|]; [|done].
  case_bool_decide as Hs; cbn [negb]; [done|]. by intros [= ->].
Qed.

Lemma or_none_id (v : value) : v ≠ Some "" → or_none v = v.
Proof.
  unfold or_none, truthy. destruct v as [s|]; [|done]. intros Hs.
  rewrite bool_decide_false; [done|]. by intros ->.
Qed.

Lemma cleaned_row_is_Some (cells : list string) (col : string) :
  is_Some (cleaned_row cells !! col) ↔ col ∈ COLUMNS.
Proof.
  unfold cleaned_row. split.
  - intros [v Hv]. apply elem_of_list_to_map_2 in Hv.
    apply elem_of_lookup_imap_1 in Hv as (i & c & Heq & Hc).
    injection Heq as -> _. by eapply list_elem_of_lookup_2.
  - intros Hin. apply not_eq_None_Some. intros Hn.
    apply not_elem_of_list_to_map_2 in Hn. apply Hn.
    apply list_elem_of_lookup_1 in Hin as [i Hi].
    apply list_elem_of_fmap. exists (col, or_none (cells !! i)). split; [done|].
    by apply (elem_of_lookup_imap_2 (fun i col => (col, or_none (cells !! i)))).
Qed.

Lemma cleaned_row_not_empty (cells : list string) (col : string) :
  cleaned_row cells !! col ≠ Some (Some "").
Proof.
  unfold cleaned_row. intros Hv. apply elem_of_list_to_map_2 in Hv.
  apply elem_of_lookup_imap_1 in Hv as (i & c & Heq & Hc).
  injection Heq as _ Heq. symmetry in Heq. by apply or_none_not_empty in Heq.
Qed.

Lemma truthy_or_str (v : value) (s : string) :
  s ≠ "" → truthy (Some (or_str v s)) = true.
Proof.
  intros Hs. unfold truthy. rewrite bool_decide_false; [done|].
  by apply or_str_nonempty.
Qed.

Lemma distinct_ids_snoc (rows : list dict) (ids : list value) (row : dict)
    (v : value) :
  task_ids rows = Ok ids → NoDup ids → v ∉ ids → row !! "task_id" = Some v →
  distinct_ids (rows ++ [row]).
Proof.
  intros Hids Hnd Hv Hrow. exists (ids ++ [v]). split.
  - by apply task_ids_app.
  - apply NoDup_app. split; [done|]. split; [|apply NoDup_singleton].
    intros x Hx Hx'. apply list_elem_of_singleton in Hx'. by subst.
Qed.

(** What the loop of the import keeps true of the table it builds. *)
Lemma import_loop_invariant (now_iso : nat → string) (rows : list (list string)) :
  (∀ n, now_iso n ≠ "") →
  ∀ acc out : list dict,
    import_loop now_iso rows acc = Ok out →
    distinct_ids acc → Forall csv_normal acc → Forall fields_ok acc →
    distinct_ids out ∧ Forall csv_normal out ∧ Forall fields_ok out.
Proof.
  intros Hnow. induction rows as [|cells rest IH]; intros acc out H Hd Hn Hf.
  - cbn [import_loop] in H. by injection H as <-.
  - cbn [import_loop] in H. case_bool_decide as Hc; [by apply (IH acc)|].
    lazy zeta in H.
    destruct (any_task_id_eq acc (dict_get (cleaned_row cells) "task_id"))
      as [[|]|e] eqn:Hany; [discriminate H| |discriminate H].
    rewrite result_bind_Ok in H.
    set (cleaned := <["last_updated" := _]> (cleaned_row cells)) in H.
    destruct (_validate_task_record cleaned (acc ++ [cleaned])) as [[]|e] eqn:Hv;
      [|discriminate H].
    rewrite result_bind_Ok in H.
    apply any_task_id_eq_false in Hany as (ids & Hids & Hnin).
    destruct Hd as (ids' & Hids' & Hnd). rewrite Hids in Hids'.
    injection Hids' as <-.
    destruct (proj2 (cleaned_row_is_Some cells "task_id")) as [v Hv'];
      [unfold COLUMNS; in_list|].
    assert (Hget : dict_get (cleaned_row cells) "task_id" = v)
      by (unfold dict_get; by rewrite Hv').
    rewrite Hget in Hnin.
    apply (IH (acc ++ [cleaned])); [done| | |].
    + apply (distinct_ids_snoc acc ids cleaned v); done.
    + apply Forall_app. split; [done|]. apply Forall_singleton.
      unfold csv_normal, cleaned. split; [|split].
      * intros col. rewrite lookup_insert_is_Some', cleaned_row_is_Some.
        split; [|tauto]. intros [<-|?]; [unfold COLUMNS; in_list|done].
      * intros col. destruct (decide (col = "last_updated")) as [->|Hne].
        -- rewrite lookup_insert_eq. intros [= E].
           by apply or_str_nonempty in E.
        -- rewrite lookup_insert_ne by done. apply cleaned_row_not_empty.
      * unfold dict_get at 1. rewrite lookup_insert_eq.
        cbn [default from_option id]. by apply truthy_or_str.
    + apply Forall_app. split; [done|]. apply Forall_singleton.
      by apply validate_Ok_iff in Hv as [? _].
Qed.

Lemma import_from_csv_loop (path : string) (fs : gmap string (list (list string)))
    (now_iso : nat → string) (table : list dict) :
  import_from_csv path fs now_iso = Ok table →
  ∃ rows, fs !! path = Some (COLUMNS :: rows)
          ∧ import_loop now_iso rows [] = Ok table.
Proof.
  unfold import_from_csv. destruct (fs !! path) as [[|names rows]|]; try done.
  case_bool_decide as Hn; [|done]. subst names. intros H. by exists rows.
Qed.

Lemma import_from_csv_invariant (path : string)
    (fs : gmap string (list (list string))) (now_iso : nat → string)
    (table : list dict) :
  (∀ n, now_iso n ≠ "") →
  import_from_csv path fs now_iso = Ok table →
  distinct_ids table ∧ Forall csv_normal table ∧ Forall fields_ok table.
Proof.
  intros Hnow H. apply import_from_csv_loop in H as (rows & _ & H).
  apply (import_loop_invariant now_iso rows Hnow [] table H).
  - exists []. split; [done|apply NoDup_nil_2].
  - apply Forall_nil_2.
  - apply Forall_nil_2.
Qed.

(** X14: A table that an import returns has pairwise distinct ids, every
    record of it has exactly the columns as keys, holds the empty string
    in no field, has a time stamp, and passes the validation against the
    table. (The clock returns a string that is not empty, as
    [datetime.isoformat] does.) *)
Theorem import_from_csv_valid (path : string)
    (fs : gmap string (list (list string))) (now_iso : nat → string)
    (table : list dict) :
  (∀ n, now_iso n ≠ "") →
  import_from_csv path fs now_iso = Ok table →
  distinct_ids table
  ∧ Forall csv_normal table
  ∧ Forall (fun row : dict => _validate_task_record row table = Ok tt) table.
Proof.
  intros Hnow H.
  destruct (import_from_csv_invariant path fs now_iso table Hnow H)
    as (Hd & Hn & Hf).
  split; [done|]. split; [done|].
  apply Forall_forall. intros row Hin. apply validate_in_distinct; try done.
  rewrite Forall_forall in Hf. by apply Hf.
Qed.

Lemma import_from_csv_valid_witness :
  distinct_ids [<["description" := None]> task_E]
  ∧ Forall csv_normal [<["description" := None]> task_E]
  ∧ Forall (fun row : dict =>
              _validate_task_record row [<["description" := None]> task_E]
              = Ok tt)
      [<["description" := None]> task_E].
Proof.
  apply (import_from_csv_valid "tasks.csv" (export_to_csv [task_E] "tasks.csv" ∅)
           (fun _ => "2024-02-01T00:00:00")).
  - intros _. discriminate.
  - vm_refl.
Defined.

Lemma cleaned_export_normal (row : dict) :
  csv_normal row → cleaned_row (export_row row) = row.
Proof.
  intros (Hk & Hne & _). apply map_eq. intros col.
  rewrite cleaned_export_row, lookup_columns_map.
  destruct (decide (col ∈ COLUMNS)) as [Hin|Hin].
  - destruct (proj2 (Hk col) Hin) as [v Hv]. unfold dict_get. rewrite Hv.
    cbn [default from_option id]. f_equal. apply or_none_id.
    intros ->. by apply (Hne col).
  - symmetry. apply eq_None_not_Some. intros Hs. by apply Hin, Hk.
Qed.

Lemma csv_normal_task_id (row : dict) :
  csv_normal row → row !! "task_id" = Some (dict_get row "task_id").
Proof.
  intros (Hk & _). destruct (proj2 (Hk "task_id")) as [v Hv];
    [unfold COLUMNS; in_list|].
  unfold dict_get. by rewrite Hv.
Qed.

Lemma csv_normal_last_updated (row : dict) (s : string) :
  csv_normal row →
  <["last_updated" := Some (or_str (dict_get row "last_updated") s)]> row = row.
Proof.
  intros (Hk & _ & Ht). apply insert_id.
  destruct (proj2 (Hk "last_updated")) as [v Hv]; [unfold COLUMNS; in_list|].
  unfold dict_get in *. rewrite Hv in *. cbn [default from_option id] in *.
  f_equal. unfold truthy in Ht. destruct v as [x|]; [|done].
  unfold or_str. destruct (bool_decide (x = "")); [done|done].
Qed.

(** The loop of the import on the rows the export wrote for records that
    an import built: they are read back as they are. *)
Lemma import_loop_normal (now_iso : nat → string) (rest : list dict) :
  ∀ acc : list dict,
    Forall csv_normal (acc ++ rest) →
    NoDup (map (fun row : dict => dict_get row "task_id") (acc ++ rest)) →
    Forall fields_ok rest →
    import_loop now_iso (map export_row rest) acc = Ok (acc ++ rest).
Proof.
  induction rest as [|r rest IH]; intros acc Hn Hnd Hf; cbn [map import_loop].
  - by rewrite app_nil_r.
  - rewrite bool_decide_false by (by unfold export_row). lazy zeta.
    assert (Hr : csv_normal r).
    { rewrite Forall_app, Forall_cons in Hn. tauto. }
    rewrite (cleaned_export_normal r Hr).
    assert (Hids : ∀ l : list dict, Forall csv_normal l →
              task_ids l = Ok (map (fun row : dict => dict_get row "task_id") l)).
    { intros l Hl. apply task_ids_lookup. eapply Forall_impl; [exact Hl|].
      intros row. apply csv_normal_task_id. }
    assert (Hacc : Forall csv_normal acc).
    { rewrite Forall_app in Hn. tauto. }
    assert (Hnd' : NoDup (map (fun row : dict => dict_get row "task_id")
                            (acc ++ [r]))).
    { rewrite (cons_middle r acc rest), app_assoc, map_app in Hnd.
      by apply NoDup_app in Hnd as (? & _). }
    rewrite (proj2 (any_task_id_eq_false acc _)).
    2:{ eexists. split; [by apply Hids|]. rewrite map_app in Hnd'.
        apply NoDup_app in Hnd' as (_ & Hdis & _). intros Hin.
        apply (Hdis _ Hin). apply list_elem_of_here. }
    rewrite result_bind_Ok. rewrite (csv_normal_last_updated r _ Hr).
    rewrite validate_in_distinct.
    + rewrite result_bind_Ok.
      rewrite (IH (acc ++ [r])).
      * by rewrite <- app_assoc.
      * by rewrite <- app_assoc.
      * by rewrite <- app_assoc.
      * rewrite Forall_cons in Hf. tauto.
    + eexists. split; [|exact Hnd']. apply Hids.
      apply Forall_app. split; [done|]. by apply Forall_singleton.
    + apply elem_of_app. right. apply list_elem_of_here.
    + rewrite Forall_cons in Hf. tauto.
Qed.

(** X15: An imported table survives the round trip unchanged: exporting a
    table that an import returned and importing the file gives the same
    table, time stamps included, whatever the path and the clock. *)
Theorem import_export_import (path path' : string)
    (fs fs' : gmap string (list (list string))) (now_iso now_iso' : nat → string)
    (table : list dict) :
  (∀ n, now_iso n ≠ "") →
  import_from_csv path fs now_iso = Ok table →
  import_from_csv path' (export_to_csv table path' fs') now_iso' = Ok table.
Proof.
  intros Hnow H.
  destruct (import_from_csv_invariant path fs now_iso table Hnow H)
    as ((ids & Hids & Hnd) & Hn & Hf).
  unfold import_from_csv, export_to_csv. rewrite lookup_insert_eq.
  rewrite bool_decide_true by done.
  apply (import_loop_normal now_iso' table []); [done| |done].
  cbn [app]. by rewrite <- (task_ids_get table ids Hids).
Qed.

Lemma import_export_import_witness :
  import_from_csv "copy.csv"
    (export_to_csv [<["description" := None]> task_E] "copy.csv" ∅)
    (fun _ => "later")
  = Ok [<["description" := None]> task_E].
Proof.
  apply (import_export_import "tasks.csv" "copy.csv"
           (export_to_csv [task_E] "tasks.csv" ∅) ∅
           (fun _ => "2024-02-01T00:00:00") (fun _ => "later")).
  - intros _. discriminate.
  - vm_refl.
Defined.

(** ** Errors of the import *)

Lemma cleaned_row_task_id (cells : list string) :
  cleaned_row cells !! "task_id" = Some (or_none (cells !! 0%nat)).
Proof.
  unfold cleaned_row, COLUMNS. cbn [imap]. apply lookup_insert_eq.
Qed.

Lemma import_loop_app (now_iso : nat → string) (a b : list (list string)) :
  ∀ acc : list dict,
    import_loop now_iso (a ++ b) acc
    = import_loop now_iso a acc ≫= import_loop now_iso b.
Proof.
  induction a as [|cells a IH]; intros acc.
  - cbn [app import_loop]. by rewrite result_bind_Ok.
  - cbn [app import_loop]. case_bool_decide; [apply IH|]. lazy zeta.
    destruct (any_task_id_eq acc _) as [[|]|e]; [done| |done].
    rewrite !result_bind_Ok.
    destruct (_validate_task_record _ _) as [[]|e]; [|done].
    rewrite !result_bind_Ok. apply IH.
Qed.

Lemma import_loop_task_ids (now_iso : nat → string) (rows : list (list string)) :
  ∀ acc out : list dict,
    import_loop now_iso rows acc = Ok out →
    (∃ ids, task_ids acc = Ok ids) →
    ∃ ids, task_ids out = Ok ids.
Proof.
  induction rows as [|cells rest IH]; intros acc out H Hacc.
  - cbn [import_loop] in H. by injection H as <-.
  - cbn [import_loop] in H. case_bool_decide as Hc; [by apply (IH acc)|].
    lazy zeta in H.
    destruct (any_task_id_eq acc _) as [[|]|e] eqn:Hany;
      [discriminate H| |discriminate H].
    rewrite result_bind_Ok in H.
    destruct (_validate_task_record _ _) as [[]|e]; [|discriminate H].
    rewrite result_bind_Ok in H.
    apply any_task_id_eq_false in Hany as (ids & Hids & _).
    apply (IH _ out H). exists (ids ++ [or_none (cells !! 0%nat)]).
    apply task_ids_app; [done|].
    rewrite lookup_insert_ne by done. apply cleaned_row_task_id.
Qed.

(** X16: The import fails with [FileNotFoundError] when there is no file, with
    the [ValueError] of the schema when the first line of the file is not
    the list of the columns (an empty file included), and with the
    [ValueError] of the duplicate when a row repeats the id of a row that
    was read before it, two rows without an id included. *)
Theorem import_from_csv_errors (path : string)
    (fs : gmap string (list (list string))) (now_iso : nat → string) :
  (fs !! path = None →
   import_from_csv path fs now_iso = Err (FileNotFoundError path))
  ∧ (∀ content, fs !! path = Some content → head content ≠ Some COLUMNS →
       import_from_csv path fs now_iso
       = Err (ValueError "CSV columns do not match expected schema"))
  ∧ (∀ (before after : list (list string)) (cells : list string)
       (read : list dict) (row : dict),
       fs !! path = Some (COLUMNS :: before ++ cells :: after) →
       import_from_csv path (<[path := COLUMNS :: before]> fs) now_iso = Ok read →
       cells ≠ [] → row ∈ read →
       row !! "task_id" = Some (or_none (cells !! 0%nat)) →
       import_from_csv path fs now_iso
       = Err (ValueError "Duplicate task_id found in CSV")).
Proof.
  split; [|split].
  - intros H. unfold import_from_csv. by rewrite H.
  - intros content H Hh. unfold import_from_csv. rewrite H.
    destruct content as [|names rows]; [done|].
    rewrite bool_decide_false; [done|]. intros ->. by apply Hh.
  - intros before after cells read row Hfs Hread Hc Hin Hrow.
    unfold import_from_csv in *. rewrite Hfs.
    rewrite lookup_insert_eq in Hread.
    rewrite bool_decide_true in Hread by done. rewrite bool_decide_true by done.
    rewrite import_loop_app, Hread, result_bind_Ok. cbn [import_loop].
    rewrite bool_decide_false by done. lazy zeta.
    destruct (import_loop_task_ids now_iso before [] read Hread) as [ids Hids];
      [by exists []|].
    rewrite (any_task_id_eq_true read ids); [done|done|].
    unfold dict_get. rewrite cleaned_row_task_id. cbn [default from_option id].
    by eapply task_ids_elem.
Qed.

Lemma import_from_csv_errors_witness :
  import_from_csv "tasks.csv"
    {["tasks.csv" := [COLUMNS; export_row task_E; export_row task_E]]}
    (fun _ => "n")
  = Err (ValueError "Duplicate task_id found in CSV").
Proof.
  apply (proj2 (proj2 (import_from_csv_errors "tasks.csv"
           {["tasks.csv" := [COLUMNS; export_row task_E; export_row task_E]]}
           (fun _ => "n")))
           [export_row task_E] [] (export_row task_E)
           [<["description" := None]> task_E]
           (<["description" := None]> task_E)).
  - vm_refl.
  - vm_refl.
  - discriminate.
  - apply list_elem_of_here.
  - vm_refl.
Defined.

(** ** What the export keeps *)

Lemma export_cell (row : dict) (col : string) :
  or_str (dict_get_default row col (Some "")) ""
  = default "" (or_none (dict_get row col)).
Proof.
  unfold dict_get_default, dict_get, or_none, or_str, truthy.
  destruct (row !! col) as [[s|]|]; cbn [default from_option id];
    try done; case_bool_decide; cbn [negb]; done.
Qed.

(** X17: The line the export writes for a record depends on the columns of the
    record alone, and it does not tell a missing key, [None] and the empty
    string apart: two records get the same line exactly when they agree on
    every column up to that. A line has one cell for each column. *)
Theorem export_row_eq_iff (row row' : dict) :
  (export_row row = export_row row'
   ↔ ∀ col, col ∈ COLUMNS →
            or_none (dict_get row col) = or_none (dict_get row' col))
  ∧ export_row (_ensure_columns row) = export_row row
  ∧ length (export_row row) = length COLUMNS.
Proof.
  split; [|split].
  - unfold export_row. rewrite map_ext_in_iff. split.
    + intros H col Hin. rewrite <- !or_none_export. f_equal. f_equal.
      apply H. by apply list_elem_of_In.
    + intros H col Hin. rewrite !export_cell. f_equal.
      apply H. by apply list_elem_of_In.
  - unfold export_row. apply map_ext_in. intros col Hin.
    rewrite !export_cell. f_equal. f_equal. unfold dict_get at 1.
    rewrite lookup_ensure_columns, decide_True; [done|].
    by apply list_elem_of_In.
  - unfold export_row. by rewrite length_map.
Qed.

Lemma export_row_eq_iff_witness :
  export_row (<["description" := None]> task_E) = export_row task_E.
Proof.
  apply (proj1 (export_row_eq_iff (<["description" := None]> task_E) task_E)).
  intros col Hin. unfold COLUMNS in Hin.
  repeat (apply elem_of_cons in Hin as [->|Hin]; [vm_refl|]).
  by apply elem_of_nil in Hin.
Defined.

(** ** The updates that are looked at *)

Lemma merge_updates_filter (row updates : dict) :
  merge_updates row (filter (fun kv : string * value => kv.1 ∈ COLUMNS) updates)
  = merge_updates row updates.
Proof.
  unfold merge_updates. f_equal. apply map_filter_filter_l. by intros i x _ H.
Qed.

Lemma changes_task_id_filter (updates : dict) (task_id : string) :
  changes_task_id (filter (fun kv : string * value => kv.1 ∈ COLUMNS) updates)
    task_id
  = changes_task_id updates task_id.
Proof.
  unfold changes_task_id.
  destruct (updates !! "task_id") as [v|] eqn:E.
  - rewrite (map_lookup_filter_Some_2 _ _ _ _ E); [done|].
    cbn [fst]. unfold COLUMNS. in_list.
  - rewrite map_lookup_filter_None_2; [done|]. by left.
Qed.

Lemma update_loop_filter (new_table : loc) (task_id : string) (updates : dict)
    (now_iso : string) (items : list loc) :
  ∀ (idx : nat) (h : heap),
    update_loop new_table task_id
      (filter (fun kv : string * value => kv.1 ∈ COLUMNS) updates)
      now_iso idx items h
    = update_loop new_table task_id updates now_iso idx items h.
Proof.
  induction items as [|r rest IH]; intros idx h; [done|].
  cbn [update_loop]. unfold mbind, M_bind.
  destruct (read_dict r h) as [h1 [row|e]]; [|done].
  destruct (lift (dict_index row "task_id") h1) as [h2 [v|e]]; [|done].
  case_bool_decide; [|apply IH]. by rewrite merge_updates_filter.
Qed.

(** X18: [update_task] looks at the keys of the updates that are columns and
    at nothing else: with the other keys removed it does the same. *)
Theorem update_task_ignores_unknown_keys (t : loc) (task_id : string)
    (updates : dict) (now_iso : string) (h : heap) :
  update_task t task_id
    (filter (fun kv : string * value => kv.1 ∈ COLUMNS) updates) now_iso h
  = update_task t task_id updates now_iso h.
Proof.
  unfold update_task. rewrite changes_task_id_filter.
  destruct (changes_task_id updates task_id); [done|].
  unfold mbind, M_bind.
  destruct (list_copy t h) as [h1 [nt|e]]; [|done].
  destruct (read_list nt h1) as [h2 [items|e]]; [|done].
  apply update_loop_filter.
Qed.

(** X19: An update that names another [task_id], [None] included, fails with
    [ValueError("task_id is immutable")] before anything is looked at or
    built: the store is left as it was, whatever the table holds. *)
Theorem update_task_immutable_id (t : loc) (task_id : string) (updates : dict)
    (now_iso : string) (h : heap) (v : value) :
  updates !! "task_id" = Some v → v ≠ Some task_id →
  update_task t task_id updates now_iso h
  = (h, Err (ValueError "task_id is immutable")).
Proof.
  intros Hv Hne. unfold update_task, changes_task_id. rewrite Hv.
  by rewrite bool_decide_false.
Qed.

Lemma update_task_immutable_id_witness :
  update_task 1%positive "E" {["task_id" := None]} "n1" (store_with task_E)
  = (store_with task_E, Err (ValueError "task_id is immutable")).
Proof.
  apply (update_task_immutable_id 1%positive "E" {["task_id" := None]} "n1"
           (store_with task_E) None).
  - vm_refl.
  - discriminate.
Defined.

(** ** The errors of the validation *)

(** X20: With a name that is not blank, the validation raises the [ValueError]
    of the priority when the priority is not of the enum, whatever else
    is wrong; else that of the status when the status is not of the enum;
    else, with dates that parse and are in order, that of the completion
    date when one is given and the status is not Completed. The messages
    are the ones Python builds with the [repr] of the lists. *)
Theorem validate_task_record_errors (task : dict) (table : list dict)
    (name : string) :
  dict_get_default task "task_name" (Some "") = Some name →
  all_space name = false →
  (value_in (dict_get task "priority") PRIORITIES = false →
   _validate_task_record task table
   = Err (ValueError
            "priority must be one of ['Low', 'Medium', 'High', 'Urgent']"))
  ∧ (value_in (dict_get task "priority") PRIORITIES = true →
     value_in (dict_get task "status") STATUSES = false →
     _validate_task_record task table
     = Err (ValueError
              "status must be one of ['To Do', 'In Progress', 'Blocked', 'Completed']"))
  ∧ (∀ start due completion,
       value_in (dict_get task "priority") PRIORITIES = true →
       value_in (dict_get task "status") STATUSES = true →
       _validate_date (dict_get task "start_date") "start_date" = Ok start →
       _validate_date (dict_get task "due_date") "due_date" = Ok due →
       _validate_date (dict_get task "completion_date") "completion_date"
       = Ok (Some completion) →
       both_and_gt start due = false →
       dict_get task "status" ≠ Some "Completed" →
       _validate_task_record task table
       = Err (ValueError
                "completion_date can only be set when status is 'Completed'")).
Proof.
  intros Hname Hsp.
  assert (Hstrip : strip name ≠ "").
  { intros E. apply strip_empty_iff in E. congruence. }
  split; [|split].
  - intros Hp. unfold _validate_task_record. rewrite Hname.
    cbn [value_strip]. rewrite result_bind_Ok, bool_decide_false by done.
    by rewrite Hp.
  - intros Hp Hs. unfold _validate_task_record. rewrite Hname.
    cbn [value_strip]. rewrite result_bind_Ok, bool_decide_false by done.
    by rewrite Hp, Hs.
  - intros start due completion Hp Hs H1 H2 H3 Hord Hst.
    unfold _validate_task_record. rewrite Hname.
    cbn [value_strip]. rewrite result_bind_Ok, bool_decide_false by done.
    rewrite Hp, Hs, H1, H2, H3. cbn [negb]. rewrite !result_bind_Ok, Hord.
    assert (Hn : is_none_or_empty (dict_get task "completion_date") = false).
    { apply not_true_iff_false. intros Hn.
      apply (validate_date_None_iff _ "completion_date") in Hn. congruence. }
    rewrite Hn, bool_decide_false by done. done.
Qed.

Lemma validate_task_record_errors_witness :
  _validate_task_record (<["priority" := Some "urgent"]> task_E) []
  = Err (ValueError
           "priority must be one of ['Low', 'Medium', 'High', 'Urgent']").
Proof.
  apply (proj1 (validate_task_record_errors
                  (<["priority" := Some "urgent"]> task_E) [] "Task E"
                  ltac:(vm_refl) ltac:(vm_refl))).
  vm_refl.
Defined.
